(** * Load-test suite of the OLTP demo

    A shallow embedding of [loadtest/locust/locustfile.py] and
    [loadtest/locust/scenarios/performance_demo.py]: the threshold checker,
    the request wrapper, the random payload generators, the weighted choice
    helper and the scenario tasks, followed by the properties they satisfy.

    Conventions of the embedding.
    - Python [int] is [Z].  A Python [float] is a binary64 number; module
      [Binary64] gives its values, its rounding and the operations the
      threshold checker uses.  The random payloads and the metrics read
      from a JSON body are kept as exact rationals [Q], and arithmetic on
      them is exact.
    - [str] is [string], holding the bytes of the UTF-8 encoding.
    - A Python value that comes out of a JSON body is a [value].
    - Code that logs, marks a response, sends a request or draws a random
      number runs in the monad [M], a state monad over [world] whose results
      are either a returned value or a raised exception.
    - The load-generation framework and the standard library are not part
      of the repository.  Their interface is modelled in the modules
      [Random] (module [random] of the standard library) and in the
      response-marking primitives [success] and [failure].  [logs] holds
      the records written by the modelled functions themselves. *)

From Stdlib Require Import ZArith QArith Qabs Qround Qpower Ascii String List Lia.
From Stdlib Require Qcanon.
From stdpp Require Import base strings gmap pretty.

Set Warnings "-register-all".
Local Open Scope Z_scope.

(** ** Python values and exceptions *)

(** Values decoded from a JSON document ([response.json()]) or passed as
    keyword arguments. *)
Inductive value : Type :=
| VNone
| VBool (b : bool)
| VNum (q : Q)
| VStr (s : string)
| VList (l : list value)
| VDict (d : gmap string value).

(** Exception classes that the modelled code can meet.  All of them derive
    from [Exception]. *)
Inductive exn_class : Type :=
| TypeError
| ValueError
| AttributeError
| ZeroDivisionError
| IndexError
| OtherError (cls : string).

(** An exception instance: its class and [str(e)]. *)
Record exn : Type := Exn { exn_cls : exn_class; exn_str : string }.

Inductive result (A : Type) : Type :=
| Ret (a : A)
| Raise (e : exn).
Arguments Ret {A} a.
Arguments Raise {A} e.

(** ** Numbers *)

Definition Qltb (x y : Q) : bool := negb (Qle_bool y x).

(** Round to the nearest integer, ties to even: the rule of [round] and of
    the [f] format code. *)
Definition round_half_even (s : Q) : Z :=
  let fl := Qfloor s in
  match (s - inject_Z fl ?= 1 # 2)%Q with
  | Lt => fl
  | Gt => fl + 1
  | Eq => if Z.even fl then fl else fl + 1
  end.

(** [round(x, ndigits)] *)
Definition py_round (x : Q) (ndigits : nat) : Q :=
  let scale := Z.pow 10 (Z.of_nat ndigits) in
  Qmake (round_half_even (x * inject_Z scale)) (Z.to_pos scale).

(** [format(x, ".1f")] for a number. *)
Definition format_1f (x : Q) : string :=
  let r := round_half_even (Qabs x * 10) in
  (if Qltb x 0 then "-" else "") +:+ pretty (r / 10) +:+ "." +:+ pretty (r mod 10).

(** *** Binary64 *)

Module Binary64.

(** The binade of a rational other than zero: the [k] with
    [2^k <= |x| < 2^(k+1)]. *)
Definition binade (x : Q) : Z :=
  let k := Z.log2 (Z.abs (Qnum x)) - Z.log2 (Zpos (Qden x)) in
  if Qle_bool (2 ^ k) (Qabs x) then k else k - 1.

(** The nearest rational with 53 significant bits, ties to even; below
    [2^-1022] the spacing stays [2^-1074] (subnormal numbers).  The range
    is checked by [of_Q]. *)
Definition round53 (x : Q) : Q :=
  if Qeq_bool x 0 then 0%Q
  else
    let e := Z.max (binade x - 52) (-1074) in
    Qred (inject_Z (round_half_even (x / 2 ^ e)) * 2 ^ e).

(** A [float].  The sign of a zero is not kept. *)
Inductive float : Type :=
| Finite (q : Q)
| Infinity (negative : bool)
| NaN.

(** The result of an arithmetic operation whose exact value is [x]. *)
Definition of_Q (x : Q) : float :=
  let r := round53 x in
  if Qle_bool (2 ^ 1024) (Qabs r) then Infinity (Qltb r 0) else Finite r.

(** The conversion of an [int] operand that meets a [float]. *)
Definition of_int (n : Z) : result float :=
  match of_Q (inject_Z n) with
  | Finite q => Ret (Finite q)
  | _ => Raise (Exn (OtherError "OverflowError") "int too large to convert to float")
  end.

(** [x * y] *)
Definition mul (x y : float) : float :=
  match x, y with
  | NaN, _ | _, NaN => NaN
  | Finite a, Finite b => of_Q (a * b)
  | Infinity s, Finite b | Finite b, Infinity s =>
      if Qeq_bool b 0 then NaN else Infinity (xorb s (Qltb b 0))
  | Infinity s, Infinity t => Infinity (xorb s t)
  end.

(** [x / y] *)
Definition div (x y : float) : result float :=
  match y with
  | Finite b =>
      if Qeq_bool b 0 then Raise (Exn ZeroDivisionError "float division by zero")
      else
        match x with
        | Finite a => Ret (of_Q (a / b))
        | Infinity s => Ret (Infinity (xorb s (Qltb b 0)))
        | NaN => Ret NaN
        end
  | Infinity _ =>
      match x with
      | Finite _ => Ret (Finite 0)
      | _ => Ret NaN
      end
  | NaN => Ret NaN
  end.

(** [x < y] *)
Definition ltb (x y : float) : bool :=
  match x, y with
  | NaN, _ | _, NaN => false
  | Finite a, Finite b => Qltb a b
  | Finite _, Infinity t => negb t
  | Infinity s, Finite _ => s
  | Infinity s, Infinity t => s && negb t
  end.

(** [f"{x:.1f}"] *)
Definition format_1f (x : float) : string :=
  match x with
  | Finite q => format_1f q
  | Infinity false => "inf"
  | Infinity true => "-inf"
  | NaN => "nan"
  end.

End Binary64.

(** *** Strings *)

(** A byte that continues a code point in UTF-8. *)
Definition continuation_byte (c : ascii) : bool :=
  let n := N_of_ascii c in (128 <=? n)%N && (n <? 192)%N.

(** [s[:n]]: the first [n] code points of a string. *)
Fixpoint str_take (n : nat) (s : string) : string :=
  match s with
  | EmptyString => EmptyString
  | String c rest =>
      if continuation_byte c then String c (str_take n rest)
      else
        match n with
        | O => EmptyString
        | S n' => String c (str_take n' rest)
        end
  end.

(** *** Values as numbers *)

(** The number a value stands for in arithmetic and comparisons
    ([bool] is a subclass of [int]). *)
Definition as_number (v : value) : option Q :=
  match v with
  | VNum q => Some q
  | VBool true => Some 1%Q
  | VBool false => Some 0%Q
  | _ => None
  end.

(** The class name used in error messages ([int] and [float] are not
    told apart by the model). *)
Definition type_name (v : value) : string :=
  match v with
  | VNone => "NoneType"
  | VBool _ => "bool"
  | VNum _ => "float"
  | VStr _ => "str"
  | VList _ => "list"
  | VDict _ => "dict"
  end.

(** [v > c] for a numeric constant [c] of type [cty]. *)
Definition py_gt (v : value) (c : Q) (cty : string) : result bool :=
  match as_number v with
  | Some q => Ret (Qltb c q)
  | None =>
      Raise (Exn TypeError ("'>' not supported between instances of '"
                            +:+ type_name v +:+ "' and '" +:+ cty +:+ "'"))
  end.

(** [v * c] for a float constant [c]. *)
Definition py_mul_float (v : value) (c : Q) : result Q :=
  match as_number v with
  | Some q => Ret (q * c)%Q
  | None =>
      match v with
      | VStr _ | VList _ =>
          Raise (Exn TypeError "can't multiply sequence by non-int of type 'float'")
      | _ =>
          Raise (Exn TypeError ("unsupported operand type(s) for *: '"
                                +:+ type_name v +:+ "' and 'float'"))
      end
  end.

(** [x / v] for a float [x]. *)
Definition py_float_div (x : Q) (v : value) : result Q :=
  match as_number v with
  | Some q =>
      if Qeq_bool q 0 then Raise (Exn ZeroDivisionError "float division by zero")
      else Ret (x / q)%Q
  | None =>
      Raise (Exn TypeError ("unsupported operand type(s) for /: 'float' and '"
                            +:+ type_name v +:+ "'"))
  end.

(** [f"{v:.1f}"] *)
Definition py_format_1f (v : value) : result string :=
  match as_number v with
  | Some q => Ret (format_1f q)
  | None =>
      match v with
      | VStr _ =>
          Raise (Exn ValueError "Unknown format code 'f' for object of type 'str'")
      | _ =>
          Raise (Exn TypeError ("unsupported format string passed to "
                                +:+ type_name v +:+ ".__format__"))
      end
  end.

(** Truth value of a value, as tested by [if v:]. *)
Definition truthy (v : value) : bool :=
  match v with
  | VNone => false
  | VBool b => b
  | VNum q => negb (Qeq_bool q 0)
  | VStr s => negb (String.eqb s "")
  | VList l => match l with [] => false | _ => true end
  | VDict d => negb (bool_decide (d = ∅))
  end.

(** [data.get(key, default)]: only a dict has the method. *)
Definition py_get (data : value) (key : string) (dflt : value) : result value :=
  match data with
  | VDict d =>
      match d !! key with
      | Some v => Ret v
      | None => Ret dflt
      end
  | _ =>
      Raise (Exn AttributeError ("'" +:+ type_name data
                                 +:+ "' object has no attribute 'get'"))
  end.

(** ** The world a callback runs in *)

Inductive level : Type := DEBUG | INFO | WARNING | ERROR.

(** Outcome set on a response by the framework's marking calls. *)
Inductive mark : Type :=
| Success
| Failure (msg : string).

(** A call of [client.request]: [name] is the display name, the remaining
    keyword arguments ([catch_response], [headers], [json], ...) are kept
    in [req_kwargs]. *)
Record request : Type := Request {
  req_method : string;
  req_url : string;
  req_name : string;
  req_kwargs : gmap string value
}.

(** What the code reads from a response.  [text] and [json()] may raise. *)
Record response : Type := Response {
  status_code : Z;
  text : result string;
  json : result value
}.

(** [entropy] is the sequence of raw outcomes of the random source and
    [pos] the number of outcomes consumed so far; [marks] are the marking
    calls made, oldest first; [logs] the log records emitted; [sent] the
    requests issued. *)
Record world : Type := World {
  entropy : nat -> N;
  pos : nat;
  marks : list mark;
  logs : list (level * string);
  sent : list request
}.

Definition M (A : Type) : Type := world -> result A * world.

Definition ret {A} (a : A) : M A := fun w => (Ret a, w).

Definition raise {A} (e : exn) : M A := fun w => (Raise e, w).

Definition bind {A B} (c : M A) (k : A -> M B) : M B :=
  fun w =>
    match c w with
    | (Ret a, w') => k a w'
    | (Raise e, w') => (Raise e, w')
    end.

(** A pure computation that may raise. *)
Definition lift {A} (r : result A) : M A := fun w => (r, w).

(** [try: body  except Exception as e: handler(e)] *)
Definition try_except {A} (body : M A) (handler : exn -> M A) : M A :=
  fun w =>
    match body w with
    | (Ret a, w') => (Ret a, w')
    | (Raise e, w') => handler e w'
    end.

Notation "x <- c ;; k" := (bind c (fun x => k))
  (at level 100, c at next level, right associativity).
Notation "c ;; k" := (bind c (fun _ => k))
  (at level 100, right associativity).

Definition log (l : level) (msg : string) : M unit :=
  fun w => (Ret tt, World (entropy w) (pos w) (marks w) (logs w ++ [(l, msg)]) (sent w)).

Fixpoint for_each {A} (l : list A) (body : A -> M unit) : M unit :=
  match l with
  | [] => ret tt
  | x :: l' => body x ;; for_each l' body
  end.

(** [response.success()] and [response.failure(msg)]: the response-marking
    interface of the framework. *)
Definition success : M unit :=
  fun w => (Ret tt, World (entropy w) (pos w) (marks w ++ [Success]) (logs w) (sent w)).

Definition failure (msg : string) : M unit :=
  fun w => (Ret tt, World (entropy w) (pos w) (marks w ++ [Failure msg]) (logs w) (sent w)).

(** The object [client.request] returns has the marking methods only when
    it is called with a true [catch_response]; without one it is the plain
    response of the HTTP library, and looking up [success] or [failure] on
    it fails. *)
Definition marking_method (kwargs : gmap string value) (attr : string) : M unit :=
  match kwargs !! "catch_response" with
  | Some v =>
      if truthy v then ret tt
      else raise (Exn AttributeError
                    ("'Response' object has no attribute '" +:+ attr +:+ "'"))
  | None =>
      raise (Exn AttributeError
               ("'Response' object has no attribute '" +:+ attr +:+ "'"))
  end.

(** The HTTP client of a simulated user: the service under test answers
    every request with a response. *)
Definition client : Type := request -> response.

Definition client_request (c : client) (r : request) : M response :=
  fun w => (Ret (c r), World (entropy w) (pos w) (marks w) (logs w) (sent w ++ [r])).

(** The outcome the framework reports for the response: the last mark. *)
Definition recorded (w : world) : option mark := last (marks w).

(** ** Module [random] of the standard library *)

Module Random.

(** One raw outcome of the generator. *)
Definition next : M N :=
  fun w => (Ret (entropy w (pos w)),
            World (entropy w) (S (pos w)) (marks w) (logs w) (sent w)).

(** [random.random()]: a multiple of 2^-53 in the half-open interval
    from 0 to 1. *)
Definition random : M Q :=
  r <- next ;; ret (Qmake (Z.of_N r mod 2 ^ 53) (2 ^ 53)).

(** [random.randint(a, b)] for [a <= b]: an integer between [a] and [b],
    both included. *)
Definition randint (a b : Z) : M Z :=
  r <- next ;; ret (a + Z.of_N r mod (b - a + 1)).

(** [random.uniform(a, b)] is [a + (b - a) * random()]. *)
Definition uniform (a b : Q) : M Q :=
  u <- random ;; ret (a + (b - a) * u)%Q.

(** [random.choice(seq)] *)
Definition choice {A} (seq : list A) : M A :=
  match seq with
  | [] => raise (Exn IndexError "Cannot choose from an empty sequence")
  | x :: _ =>
      r <- next ;;
      ret (nth (N.to_nat (r mod N.of_nat (length seq))) seq x)
  end.

(** [itertools.accumulate] over integer weights: running sums. *)
Fixpoint accumulate_from (acc : Z) (weights : list Z) : list Z :=
  match weights with
  | [] => []
  | x :: rest => (acc + x) :: accumulate_from (acc + x) rest
  end.

Definition accumulate (weights : list Z) : list Z := accumulate_from 0 weights.

(** [bisect.bisect_right(a, x, lo, hi)]; [fuel] bounds the number of
    halvings, [hi - lo] is always enough. *)
Fixpoint bisect_right (fuel : nat) (a : list Z) (x : Q) (lo hi : nat) : nat :=
  match fuel with
  | O => lo
  | S fuel' =>
      if (lo <? hi)%nat then
        let mid := ((lo + hi) / 2)%nat in
        if Qltb x (inject_Z (nth mid a 0)) then bisect_right fuel' a x lo mid
        else bisect_right fuel' a x (S mid) hi
      else lo
  end.

(** [random.choices(population, weights=weights, k=1)[0]], as CPython
    (3.9 and later) computes it: cumulative weights, a check of their
    total, and a bisection at [random() * total]. *)
Definition choices1 {A} (population : list A) (weights : list Z) : M A :=
  let n := length population in
  let cum_weights := accumulate weights in
  if negb (length cum_weights =? n)%nat then
    raise (Exn ValueError "The number of weights does not match the population")
  else
    match population, last cum_weights with
    | x :: _, Some total =>
        if (total <=? 0) then
          raise (Exn ValueError "Total of weights must be greater than zero")
        else
          let hi := (n - 1)%nat in
          u <- random ;;
          ret (nth (bisect_right (hi - 0) cum_weights (u * inject_Z total)%Q 0 hi)
                   population x)
    | _, _ => raise (Exn IndexError "list index out of range")
    end.

End Random.

(** ** [locustfile.py] *)

Module Locustfile.

(** [dict.setdefault(key, v)] on the keyword arguments. *)
Definition setdefault (key : string) (v : value) (kwargs : gmap string value)
  : gmap string value :=
  match kwargs !! key with
  | Some _ => kwargs
  | None => <[key := v]> kwargs
  end.

Module OltpDemoUser.

Definition headers : gmap string value :=
  <["Content-Type" := VStr "application/json"]>
    (<["Accept" := VStr "application/json"]> ∅).

(** [name or f"{method} {endpoint}"] *)
Definition display_name (name : option string) (method endpoint : string) : string :=
  match name with
  | Some n => if String.eqb n "" then method +:+ " " +:+ endpoint else n
  | None => method +:+ " " +:+ endpoint
  end.

(** The attributes [on_start] gives a user. *)
Record user_state : Type := UserState {
  user_id : Z;
  account_id : Z
}.

(** [on_start(self)]; [user_count] is [self.environment.runner.user_count]. *)
Definition on_start (user_count : Z) : M user_state :=
  log INFO ("User " +:+ pretty user_count +:+ " started") ;;
  uid <- Random.randint 1 100 ;;
  aid <- Random.randint 1 100 ;;
  ret (UserState uid aid).

Definition on_stop : M unit := log INFO "User stopped".

(** [make_request(self, method, endpoint, name=None, **kwargs)]; the
    result is the response, or [None].  A marking call first looks the
    method up on the response object, then evaluates its argument. *)
Definition make_request (self : client) (method endpoint : string)
    (name : option string) (kwargs : gmap string value) : M (option response) :=
  let kwargs := setdefault "headers" (VDict headers) kwargs in
  let kwargs := setdefault "catch_response" (VBool true) kwargs in
  response <- client_request self
    (Request method endpoint (display_name name method endpoint) kwargs) ;;
  try_except
    (if status_code response =? 200 then
       marking_method kwargs "success" ;;
       success ;;
       ret (Some response)
     else if status_code response =? 500 then
       marking_method kwargs "failure" ;;
       body <- lift (text response) ;;
       failure ("Server error: " +:+ str_take 100 body) ;;
       ret None
     else if status_code response =? 404 then
       marking_method kwargs "failure" ;;
       failure ("Not found: " +:+ endpoint) ;;
       ret None
     else
       marking_method kwargs "failure" ;;
       failure ("Unexpected status: " +:+ pretty (status_code response)) ;;
       ret None)
    (fun e =>
       marking_method kwargs "failure" ;;
       failure ("Exception: " +:+ exn_str e) ;;
       log ERROR ("Request failed: " +:+ exn_str e) ;;
       ret None).

End OltpDemoUser.

Module DefaultUser.

Definition health_check (self : client) : M unit :=
  OltpDemoUser.make_request self "GET" "/actuator/health" (Some "Health Check") ∅ ;;
  ret tt.

Definition info_endpoint (self : client) : M unit :=
  OltpDemoUser.make_request self "GET" "/actuator/info" (Some "Info Check") ∅ ;;
  ret tt.

End DefaultUser.

(** The dictionary built by [generate_account_data]. *)
Record account_data : Type := AccountData {
  userId : Z;
  accountTypeId : Z;
  balance : Q;
  status : string
}.

Definition generate_account_data : M account_data :=
  user_id <- Random.randint 1 100 ;;
  account_type_id <- Random.randint 1 3 ;;
  x <- Random.uniform 100 10000 ;;
  st <- Random.choice ["ACTIVE"; "ACTIVE"; "ACTIVE"; "SUSPENDED"] ;;
  ret (AccountData user_id account_type_id (py_round x 2) st).

(** The dictionary built by [generate_transfer_data]. *)
Record transfer_data : Type := TransferData {
  fromAccountId : Z;
  toAccountId : Z;
  amount : Q
}.

(** [while to_account == from_account: to_account = random.randint(1, 100)].
    The loop has no bound in the source; [fuel] is the number of
    iterations the model is allowed, and [None] means that they did not
    suffice. *)
Fixpoint redraw (fuel : nat) (from_account to_account : Z) : M (option Z) :=
  if to_account =? from_account then
    match fuel with
    | O => ret None
    | S fuel' =>
        to_account' <- Random.randint 1 100 ;;
        redraw fuel' from_account to_account'
    end
  else ret (Some to_account).

Definition generate_transfer_data (fuel : nat) : M (option transfer_data) :=
  from_account <- Random.randint 1 100 ;;
  to_account <- Random.randint 1 100 ;;
  r <- redraw fuel from_account to_account ;;
  match r with
  | None => ret None
  | Some to_account =>
      x <- Random.uniform 10 500 ;;
      ret (Some (TransferData from_account to_account (py_round x 2)))
  end.

(** [choices, weights = zip( *choices_with_weights )]: the transposition
    of a list of pairs has two rows, unless the list is empty, when it has
    none and the unpacking fails. *)
Definition zip_star {A} (choices_with_weights : list (A * Z))
  : result (list A * list Z) :=
  match choices_with_weights with
  | [] => Raise (Exn ValueError "not enough values to unpack (expected 2, got 0)")
  | _ => Ret (map fst choices_with_weights, map snd choices_with_weights)
  end.

Definition weighted_choice {A} (choices_with_weights : list (A * Z)) : M A :=
  cw <- lift (zip_star choices_with_weights) ;;
  Random.choices1 (fst cw) (snd cw).

Module PerformanceThresholds.
Definition SIMPLE_QUERY_MAX : Z := 50.
Definition COMPLEX_QUERY_MAX : Z := 200.
Definition TRANSACTION_MAX : Z := 100.
Definition BATCH_OPERATION_MAX : Z := 500.
Definition MIN_SUCCESS_RATE : Q := 95.
Definition MIN_RPS : Z := 100.
End PerformanceThresholds.

(** [stats.total] of the framework's statistics object. *)
Record stats_entry : Type := StatsEntry {
  num_requests : Z;
  num_failures : Z;
  total_rps : Q
}.

Record stats_t : Type := Stats { total : stats_entry }.

(** [check_performance_thresholds(stats)], the success rate taken as the
    exact quotient. *)
Definition check_performance_thresholds (stats : stats_t) : M bool :=
  let issues : list string := [] in
  let total_requests := num_requests (total stats) in
  let total_failures := num_failures (total stats) in
  let issues :=
    if total_requests >? 0 then
      let success_rate :=
        (inject_Z (total_requests - total_failures) * 100 / inject_Z total_requests)%Q in
      if Qltb success_rate PerformanceThresholds.MIN_SUCCESS_RATE then
        issues ++ ["Success rate (" +:+ format_1f success_rate
                   +:+ "%) below threshold (95.0%)"]
      else issues
    else issues in
  let issues :=
    if Qltb (total_rps (total stats)) (inject_Z PerformanceThresholds.MIN_RPS) then
      issues ++ ["RPS (" +:+ format_1f (total_rps (total stats))
                 +:+ ") below threshold ("
                 +:+ pretty PerformanceThresholds.MIN_RPS +:+ ")"]
    else issues in
  match issues with
  | _ :: _ =>
      log WARNING "Performance threshold violations:" ;;
      for_each issues (fun issue => log WARNING ("  - " +:+ issue)) ;;
      ret false
  | [] =>
      log INFO "All performance thresholds met!" ;;
      ret true
  end.

Module InBinary64.

(** [check_performance_thresholds(stats)] as the interpreter runs it: the
    two counts are integers, and the success rate is computed in binary64
    from their conversions. *)
Definition check_performance_thresholds (stats : stats_t) : M bool :=
  let issues : list string := [] in
  let total_requests := num_requests (total stats) in
  let total_failures := num_failures (total stats) in
  issues <-
    (if total_requests >? 0 then
       difference <- lift (Binary64.of_int (total_requests - total_failures)) ;;
       divisor <- lift (Binary64.of_int total_requests) ;;
       success_rate <-
         lift (Binary64.div (Binary64.mul difference (Binary64.Finite 100)) divisor) ;;
       if Binary64.ltb success_rate
            (Binary64.Finite PerformanceThresholds.MIN_SUCCESS_RATE) then
         ret (issues ++ ["Success rate (" +:+ Binary64.format_1f success_rate
                         +:+ "%) below threshold (95.0%)"])
       else ret issues
     else ret issues) ;;
  let issues :=
    if Qltb (total_rps (total stats)) (inject_Z PerformanceThresholds.MIN_RPS) then
      issues ++ ["RPS (" +:+ format_1f (total_rps (total stats))
                 +:+ ") below threshold ("
                 +:+ pretty PerformanceThresholds.MIN_RPS +:+ ")"]
    else issues in
  match issues with
  | _ :: _ =>
      log WARNING "Performance threshold violations:" ;;
      for_each issues (fun issue => log WARNING ("  - " +:+ issue)) ;;
      ret false
  | [] =>
      log INFO "All performance thresholds met!" ;;
      ret true
  end.

End InBinary64.

End Locustfile.

(** ** [scenarios/performance_demo.py] *)

Module PerformanceDemo.

(** [self.client.get(url, name=name, **kwargs)] and
    [self.client.post(url, name=name, **kwargs)] *)
Definition client_get (self : client) (url name : string) (kwargs : gmap string value)
  : M response :=
  client_request self (Request "GET" url name kwargs).

Definition client_post (self : client) (url name : string) (kwargs : gmap string value)
  : M response :=
  client_request self (Request "POST" url name kwargs).

(** [catch_response=True] *)
Definition catch_response : gmap string value := <["catch_response" := VBool true]> ∅.

Definition VInt (n : Z) : value := VNum (inject_Z n).

Module ConnectionPoolingTasks.

Definition test_pooled_connections (self : client) : M unit :=
  iterations <- Random.choice [10; 50; 100] ;;
  response <- client_get self
    ("/api/demos/performance/connection-pooling?iterations=" +:+ pretty iterations)
    "Connection Pooling (Pooled)" catch_response ;;
  if status_code response =? 200 then
    try_except
      (data <- lift (json response) ;;
       speedup <- lift (py_get data "speedupFactor" (VInt 0)) ;;
       ok <- lift (py_gt speedup 2 "float") ;;
       if ok : bool then
         success ;;
         s <- lift (py_format_1f speedup) ;;
         log DEBUG ("Connection pooling speedup: " +:+ s +:+ "x")
       else
         s <- lift (py_format_1f speedup) ;;
         failure ("Insufficient speedup: " +:+ s +:+ "x (expected > 2x)"))
      (fun e => failure ("Failed to parse response: " +:+ exn_str e))
  else failure ("HTTP " +:+ pretty (status_code response)).

Definition test_concurrent_pooling (self : client) : M unit :=
  concurrent_clients <- Random.choice [10; 20; 50] ;;
  queries_per_client <- Random.choice [5; 10] ;;
  response <- client_get self
    ("/api/demos/performance/connection-pooling/concurrent"
     +:+ "?concurrentClients=" +:+ pretty concurrent_clients
     +:+ "&queriesPerClient=" +:+ pretty queries_per_client)
    "Concurrent Connection Pooling" catch_response ;;
  if status_code response =? 200 then
    try_except
      (data <- lift (json response) ;;
       successful <- lift (py_get data "successfulQueries" (VInt 0)) ;;
       scaled <- lift (py_mul_float successful 100) ;;
       total_queries <- lift (py_get data "totalQueries" (VInt 1)) ;;
       success_rate <- lift (py_float_div scaled total_queries) ;;
       if Qle_bool 95 success_rate then success
       else failure ("Low success rate: " +:+ format_1f success_rate +:+ "%"))
      (fun e => failure ("Failed to parse response: " +:+ exn_str e))
  else failure ("HTTP " +:+ pretty (status_code response)).

Definition get_pool_statistics (self : client) : M unit :=
  client_get self "/api/demos/performance/connection-pooling/stats"
    "Pool Statistics" ∅ ;;
  ret tt.

End ConnectionPoolingTasks.

Module BatchOperationsTasks.

Definition test_batch_operations (self : client) : M unit :=
  record_count <- Random.choice [50; 100; 200] ;;
  batch_size <- Random.choice [50; 100] ;;
  response <- client_post self "/api/demos/performance/batch-operations"
    "Batch Operations"
    (<["json" := VDict (<["recordCount" := VInt record_count]>
                          (<["batchSize" := VInt batch_size]> ∅))]> catch_response) ;;
  if status_code response =? 200 then
    try_except
      (data <- lift (json response) ;;
       speedup <- lift (py_get data "speedupFactor" (VInt 0)) ;;
       ok <- lift (py_gt speedup 3 "float") ;;
       if ok : bool then
         success ;;
         s <- lift (py_format_1f speedup) ;;
         log DEBUG ("Batch operations speedup: " +:+ s +:+ "x")
       else
         s <- lift (py_format_1f speedup) ;;
         failure ("Insufficient speedup: " +:+ s +:+ "x (expected > 3x)"))
      (fun e => failure ("Failed to parse response: " +:+ exn_str e))
  else failure ("HTTP " +:+ pretty (status_code response)).

Definition test_jpa_batch (self : client) : M unit :=
  record_count <- Random.choice [50; 100] ;;
  response <- client_post self
    ("/api/demos/performance/batch-operations/jpa?recordCount=" +:+ pretty record_count)
    "JPA Batch Operations" catch_response ;;
  if status_code response =? 200 then
    try_except
      (data <- lift (json response) ;;
       records_per_sec <- lift (py_get data "recordsPerSecond" (VInt 0)) ;;
       ok <- lift (py_gt records_per_sec 50 "int") ;;
       if ok : bool then success
       else
         s <- lift (py_format_1f records_per_sec) ;;
         failure ("Low throughput: " +:+ s +:+ " records/sec"))
      (fun e => failure ("Failed to parse response: " +:+ exn_str e))
  else failure ("HTTP " +:+ pretty (status_code response)).

End BatchOperationsTasks.

Module CachingTasks.

(** [self.account_ids = list(range(1, 101))] *)
Definition on_start : list Z := map Z.of_nat (seq 1 100).

Definition test_caching (self : client) (account_ids : list Z) : M unit :=
  account_id <- Random.choice account_ids ;;
  iterations <- Random.choice [5; 10] ;;
  response <- client_get self
    ("/api/demos/performance/caching?accountId=" +:+ pretty account_id
     +:+ "&iterations=" +:+ pretty iterations)
    "Caching Performance" catch_response ;;
  if status_code response =? 200 then
    try_except
      (data <- lift (json response) ;;
       speedup <- lift (py_get data "speedupFactor" (VInt 0)) ;;
       hit_rate <- lift (py_get data "cacheHitRate" (VInt 0)) ;;
       fast <- lift (py_gt speedup (3 # 2) "float") ;;
       ok <- (if fast : bool then lift (py_gt hit_rate 70 "int") else ret false) ;;
       if ok : bool then
         success ;;
         s <- lift (py_format_1f speedup) ;;
         h <- lift (py_format_1f hit_rate) ;;
         log DEBUG ("Cache speedup: " +:+ s +:+ "x, hit rate: " +:+ h +:+ "%")
       else
         s <- lift (py_format_1f speedup) ;;
         h <- lift (py_format_1f hit_rate) ;;
         failure ("Insufficient performance: " +:+ s +:+ "x speedup, "
                  +:+ h +:+ "% hit rate"))
      (fun e => failure ("Failed to parse response: " +:+ exn_str e))
  else failure ("HTTP " +:+ pretty (status_code response)).

Definition clear_cache (self : client) : M unit :=
  client_post self "/api/demos/performance/caching/clear" "Clear Cache" ∅ ;;
  ret tt.

Definition get_cache_statistics (self : client) : M unit :=
  client_get self "/api/demos/performance/caching/stats" "Cache Statistics" ∅ ;;
  ret tt.

End CachingTasks.

Module IndexingTasks.

Definition test_indexing (self : client) : M unit :=
  user_id <- Random.randint 1 100 ;;
  response <- client_get self
    ("/api/demos/performance/indexing?userId=" +:+ pretty user_id)
    "Indexing Performance" catch_response ;;
  if status_code response =? 200 then
    try_except
      (data <- lift (json response) ;;
       speedup <- lift (py_get data "speedupFactor" (VInt 0)) ;;
       ok <- lift (py_gt speedup 5 "float") ;;
       if ok : bool then
         success ;;
         s <- lift (py_format_1f speedup) ;;
         log DEBUG ("Index speedup: " +:+ s +:+ "x")
       else
         s <- lift (py_format_1f speedup) ;;
         failure ("Insufficient speedup: " +:+ s +:+ "x (expected > 5x)"))
      (fun e => failure ("Failed to parse response: " +:+ exn_str e))
  else failure ("HTTP " +:+ pretty (status_code response)).

Definition test_indexed_query_explain (self : client) : M unit :=
  user_id <- Random.randint 1 100 ;;
  response <- client_get self
    ("/api/demos/performance/indexing/indexed-query?userId=" +:+ pretty user_id)
    "Indexed Query (EXPLAIN)" catch_response ;;
  if status_code response =? 200 then
    try_except
      (data <- lift (json response) ;;
       used_index <- lift (py_get data "usedIndex" (VBool false)) ;;
       if truthy used_index then success
       else failure "Query did not use index")
      (fun e => failure ("Failed to parse response: " +:+ exn_str e))
  else failure ("HTTP " +:+ pretty (status_code response)).

End IndexingTasks.

(** The tasks declared by the four task sets. *)
Inductive task : Type :=
| TestPooledConnections
| TestConcurrentPooling
| GetPoolStatistics
| TestBatchOperations
| TestJpaBatch
| TestCaching
| ClearCache
| GetCacheStatistics
| TestIndexing
| TestIndexedQueryExplain.

(** The weight given to each task by its [@task(n)] decorator. *)
Definition task_weight (t : task) : Z :=
  match t with
  | TestPooledConnections => 10
  | TestConcurrentPooling => 5
  | GetPoolStatistics => 2
  | TestBatchOperations => 8
  | TestJpaBatch => 4
  | TestCaching => 15
  | ClearCache => 2
  | GetCacheStatistics => 3
  | TestIndexing => 10
  | TestIndexedQueryExplain => 5
  end.

(** One turn of a simulated user: the framework runs the selected task;
    a caching task sees the [account_ids] set by [on_start]. *)
Definition run_task (t : task) (self : client) : M unit :=
  match t with
  | TestPooledConnections => ConnectionPoolingTasks.test_pooled_connections self
  | TestConcurrentPooling => ConnectionPoolingTasks.test_concurrent_pooling self
  | GetPoolStatistics => ConnectionPoolingTasks.get_pool_statistics self
  | TestBatchOperations => BatchOperationsTasks.test_batch_operations self
  | TestJpaBatch => BatchOperationsTasks.test_jpa_batch self
  | TestCaching => CachingTasks.test_caching self CachingTasks.on_start
  | ClearCache => CachingTasks.clear_cache self
  | GetCacheStatistics => CachingTasks.get_cache_statistics self
  | TestIndexing => IndexingTasks.test_indexing self
  | TestIndexedQueryExplain => IndexingTasks.test_indexed_query_explain self
  end.

(** The tasks that pass [catch_response=True] and mark the response
    themselves. *)
Definition validates (t : task) : bool :=
  match t with
  | GetPoolStatistics | ClearCache | GetCacheStatistics => false
  | _ => true
  end.

End PerformanceDemo.

(** * Specification-level definitions *)

Import Locustfile PerformanceDemo.

(** The success rate as the specification words it: a percentage of the
    requests that did not fail, defined once there is a request. *)
Definition computed_success_rate (requests failures : Z) : option Q :=
  if requests =? 0 then None
  else Some (100 * inject_Z (requests - failures) / inject_Z requests)%Q.

(** A world in which nothing has happened yet and every raw random
    outcome is 0. *)
Definition idle_world : world := World (fun _ => 0%N) 0 [] [] [].

(** A client that answers every request with the same, mocked, response. *)
Definition mocked (resp : response) : client := fun _ => resp.






(** Symbolic execution of the monadic code. *)
Ltac run_monad :=
  cbv beta iota zeta delta
    [bind ret raise lift try_except log success failure client_request
     client_get client_post Random.next Random.random Random.randint
     Random.uniform Random.choice entropy pos marks logs sent mocked
     py_get py_gt py_format_1f py_mul_float py_float_div as_number VInt
     inject_Z].

(** The same, leaving the operations on values folded. *)
Ltac run_effects :=
  cbv beta iota zeta delta
    [bind ret raise lift try_except log success failure client_request
     client_get client_post Random.next Random.random Random.randint
     Random.uniform Random.choice entropy pos marks logs sent mocked].

Ltac case_value v :=
  destruct v as [| [|] | ? | ? | ? | ?].

Ltac case_test :=
  match goal with
  | |- context [Qltb ?a ?b] => destruct (Qltb a b) eqn:?
  | |- context [Qeq_bool ?a ?b] => destruct (Qeq_bool a b) eqn:?
  | |- context [Qle_bool ?a ?b] => destruct (Qle_bool a b) eqn:?
  | |- context [truthy ?v] => destruct (truthy v) eqn:?
  end.


(** The account id that [random.randint(1, 100)] makes of the raw outcome
    at position [i] of the random source. *)
Definition account_id_at (w : world) (i : nat) : Z :=
  1 + Z.of_N (entropy w i) mod 100.

(** The successive candidates for [to_account] in [generate_transfer_data]:
    the value before the loop, then one draw for each iteration. *)
Definition candidate (w : world) (to_account : Z) (j : nat) : Z :=
  match j with
  | O => to_account
  | S j' => account_id_at w (pos w + j')
  end.



(** What a run of a task sends and logs, and the messages of the failures
    that do not depend on the metrics. *)
Definition task_detail (t : task) (self : client) (w : world) : Prop :=
  exists req,
    (req_kwargs req !! "catch_response"
       = if validates t then Some (VBool true) else None) /\
    String.prefix "/api/demos/performance/" (req_url req) = true /\
    (req_method req = "GET" \/ req_method req = "POST") /\
    exists w',
      run_task t self w = (Ret tt, w') /\
      sent w' = sent w ++ [req] /\
      if validates t then
        exists m,
          marks w' = marks w ++ [m] /\
          (status_code (self req) <> 200 ->
           m = Failure ("HTTP " +:+ pretty (status_code (self req)))) /\
          (forall e, status_code (self req) = 200 -> json (self req) = Raise e ->
             m = Failure ("Failed to parse response: " +:+ exn_str e)) /\
          ((m = Success /\
            (logs w' = logs w \/ exists line, logs w' = logs w ++ [(DEBUG, line)]))
           \/ (m <> Success /\ logs w' = logs w))
      else marks w' = marks w /\ logs w' = logs w.

Ltac unfold_tasks :=
  unfold ConnectionPoolingTasks.test_pooled_connections,
    ConnectionPoolingTasks.test_concurrent_pooling,
    ConnectionPoolingTasks.get_pool_statistics,
    BatchOperationsTasks.test_batch_operations,
    BatchOperationsTasks.test_jpa_batch,
    CachingTasks.test_caching, CachingTasks.clear_cache,
    CachingTasks.get_cache_statistics,
    IndexingTasks.test_indexing, IndexingTasks.test_indexed_query_explain.

Ltac close_detail :=
  eexists; split; [reflexivity|]; split; [reflexivity|];
  eexists; split; [reflexivity|];
  split; [intros ?; first [reflexivity | congruence]|];
  split; [intros ? ? ?; first [reflexivity | congruence]|];
  first [ left; split; [reflexivity|];
          first [left; reflexivity | right; eexists; reflexivity]
        | right; split; [discriminate | reflexivity] ].

(** * Properties *)

(** ** Running monadic code *)

Lemma bind_run {A B : Type} (c : M A) (k : A -> M B) (w : world) :
  bind c k w =
    match c w with
    | (Ret a, w') => k a w'
    | (Raise e, w') => (Raise e, w')
    end.
Proof. reflexivity. Qed.

(** ** Rational arithmetic *)

Lemma Qltb_lt (x y : Q) : Qltb x y = true <-> (x < y)%Q.
Proof.
  unfold Qltb. rewrite negb_true_iff. split.
  - intros H. apply Qnot_le_lt. intros Hle.
    apply Qle_bool_iff in Hle. congruence.
  - intros H. destruct (Qle_bool y x) eqn:E; [|reflexivity].
    apply Qle_bool_iff in E. exfalso. exact (Qlt_not_le _ _ H E).
Qed.

Lemma Qltb_ge (x y : Q) : Qltb x y = false <-> (y <= x)%Q.
Proof.
  unfold Qltb. rewrite negb_false_iff. apply Qle_bool_iff.
Qed.

(** The rounded value is the floor or its successor. *)
Lemma round_half_even_cases (s : Q) :
  round_half_even s = Qfloor s \/
  (round_half_even s = Qfloor s + 1 /\ (1 # 2 <= s - inject_Z (Qfloor s))%Q).
Proof.
  unfold round_half_even.
  destruct (s - inject_Z (Qfloor s) ?= 1 # 2)%Q eqn:E.
  - apply Qeq_alt in E. destruct (Z.even (Qfloor s)); [left; reflexivity|].
    right. split; [reflexivity|]. rewrite E. apply Qle_refl.
  - left. reflexivity.
  - right. split; [reflexivity|]. apply Qgt_alt in E. apply Qlt_le_weak, E.
Qed.

(** Rounding keeps a value between two integers that enclose it. *)
Lemma round_half_even_bounds (s : Q) (a b : Z) :
  (inject_Z a <= s)%Q -> (s <= inject_Z b)%Q -> a <= round_half_even s <= b.
Proof.
  intros Ha Hb.
  assert (Hfa : a <= Qfloor s).
  { rewrite <- (Qfloor_Z a). apply Qfloor_resp_le, Ha. }
  assert (Hfb : Qfloor s <= b).
  { rewrite <- (Qfloor_Z b). apply Qfloor_resp_le, Hb. }
  destruct (round_half_even_cases s) as [-> | [-> Hfrac]]; [lia|].
  split; [lia|].
  destruct (Z.eq_dec (Qfloor s) b) as [Heq | Hne]; [|lia].
  exfalso. rewrite Heq in Hfrac.
  assert (H0 : (s - inject_Z b <= 0)%Q).
  { apply (Qplus_le_l _ _ (inject_Z b)). ring_simplify. exact Hb. }
  assert (H1 : (1 # 2 <= 0)%Q) by (eapply Qle_trans; eassumption).
  revert H1. unfold Qle. simpl. lia.
Qed.

(** [random.random()] never reaches 1. *)
Lemma unit_draw_bounds (r : N) :
  (0 <= Qmake (Z.of_N r mod 2 ^ 53) (2 ^ 53) /\ Qmake (Z.of_N r mod 2 ^ 53) (2 ^ 53) < 1)%Q.
Proof.
  assert (H : 0 <= Z.of_N r mod 2 ^ 53 < 2 ^ 53) by (apply Z.mod_pos_bound; lia).
  unfold Qle, Qlt. simpl Qnum. simpl Qden.
  change (Z.pos (2 ^ 53)) with (2 ^ 53). lia.
Qed.

(** The formatting and rounding helpers on a few values. *)
Example format_1f_values :
  format_1f (7 # 2) = "3.5" /\ format_1f (-(1 # 25)) = "-0.0"
  /\ format_1f (1234567 # 1000) = "1234.6" /\ format_1f 95 = "95.0".
Proof. vm_compute. repeat split. Qed.

Example py_round_values :
  py_round (12346 # 1000) 2 = 1235 # 100 /\ py_round (12345 # 1000) 2 = 1234 # 100
  /\ py_round (-(7 # 3)) 2 = -233 # 100.
Proof. vm_compute. repeat split. Qed.

(** ** Binary64 arithmetic *)

Section Binary64Facts.

Import Binary64.


(** Powers of two *)

Lemma two_neq_0 : ~ (2 == 0)%Q.
Proof. intros H. discriminate H. Qed.

Lemma pow2_pos (k : Z) : (0 < 2 ^ k)%Q.
Proof. apply Qpower_0_lt. reflexivity. Qed.

Lemma pow2_plus (n m : Z) : (2 ^ (n + m) == 2 ^ n * 2 ^ m)%Q.
Proof. apply Qpower_plus, two_neq_0. Qed.

Lemma pow2_inject (k : Z) : 0 <= k -> (inject_Z (2 ^ k) == 2 ^ k)%Q.
Proof. intros Hk. apply (Zpower_Qpower 2 k Hk). Qed.

Lemma pow2_lt (n m : Z) : n < m -> (2 ^ n < 2 ^ m)%Q.
Proof. intros H. apply Qpower_lt_compat_l; [exact H | reflexivity]. Qed.

Lemma pow2_le (n m : Z) : n <= m -> (2 ^ n <= 2 ^ m)%Q.
Proof. intros H. apply Qpower_le_compat_l; [exact H | discriminate]. Qed.

Lemma pow2_lt_inv (n m : Z) : (2 ^ n < 2 ^ m)%Q -> n < m.
Proof. intros H. apply (Qpower_lt_compat_l_inv 2 n m H). reflexivity. Qed.

Lemma div_pow2 (x : Q) (e : Z) : (x / 2 ^ e == x * 2 ^ (- e))%Q.
Proof. unfold Qdiv. rewrite Qpower_opp. reflexivity. Qed.

Lemma pow2_cancel (e : Z) : (2 ^ (- e) * 2 ^ e == 1)%Q.
Proof. rewrite <- pow2_plus. replace (- e + e) with 0 by lia. reflexivity. Qed.

(** Rounding to an integer *)

Lemma round_half_even_comp (s t : Q) : (s == t)%Q -> round_half_even s = round_half_even t.
Proof.
  intros H. unfold round_half_even.
  rewrite (Qfloor_comp _ _ H).
  assert (Hc : (s - inject_Z (Qfloor t) ?= 1 # 2)%Q = (t - inject_Z (Qfloor t) ?= 1 # 2)%Q).
  { apply Qcompare_comp; [rewrite H; reflexivity | reflexivity]. }
  rewrite Hc. reflexivity.
Qed.

Lemma round_half_even_Z (z : Z) : round_half_even (inject_Z z) = z.
Proof.
  unfold round_half_even. rewrite Qfloor_Z.
  assert (Hc : (inject_Z z - inject_Z z ?= 1 # 2)%Q = Lt).
  { apply Qlt_alt. setoid_replace (inject_Z z - inject_Z z)%Q with 0%Q using relation Qeq by ring.
    reflexivity. }
  rewrite Hc. reflexivity.
Qed.

Lemma pow2_frac (i j : Z) :
  0 <= i -> 0 <= j -> (2 ^ (i - j) == 2 ^ i # Z.to_pos (2 ^ j))%Q.
Proof.
  intros Hi Hj.
  assert (Hpos : 0 < 2 ^ j) by (apply Z.pow_pos_nonneg; lia).
  rewrite (Qmake_Qdiv (2 ^ i) (Z.to_pos (2 ^ j))).
  rewrite Z2Pos.id by exact Hpos.
  rewrite (pow2_inject i Hi), (pow2_inject j Hj).
  unfold Z.sub. rewrite pow2_plus, Qpower_opp. reflexivity.
Qed.

(** [binade x] is the exponent of the power of two at or below [|x|]. *)
Lemma binade_spec (x : Q) :
  ~ (x == 0)%Q ->
  (2 ^ binade x <= Qabs x)%Q /\ (Qabs x < 2 ^ (binade x + 1))%Q.
Proof.
  intros Hx. destruct x as [num den].
  assert (Hnum : num <> 0).
  { intros ->. apply Hx. reflexivity. }
  unfold binade. cbn [Qnum Qden].
  set (a := Z.abs num). set (b := Z.pos den).
  assert (Ha : 0 < a) by (unfold a; lia).
  assert (Hb : 0 < b) by (unfold b; lia).
  set (la := Z.log2 a). set (lb := Z.log2 b).
  assert (Hla : 0 <= la) by apply Z.log2_nonneg.
  assert (Hlb : 0 <= lb) by apply Z.log2_nonneg.
  destruct (Z.log2_spec a Ha) as [Ha1 Ha2]. fold la in Ha1, Ha2.
  destruct (Z.log2_spec b Hb) as [Hb1 Hb2]. fold lb in Hb1, Hb2.
  replace (Z.succ la) with (la + 1) in Ha2 by lia.
  replace (Z.succ lb) with (lb + 1) in Hb2 by lia.
  assert (Habs : Qabs (num # den) = (a # den)) by reflexivity.
  rewrite Habs.
  assert (Hupper : (a # den < 2 ^ (la - lb + 1))%Q).
  { replace (la - lb + 1) with ((la + 1) - lb) by lia.
    rewrite pow2_frac by lia.
    unfold Qlt. cbn [Qnum Qden].
    rewrite Z2Pos.id by (apply Z.pow_pos_nonneg; lia). fold b.
    apply Z.le_lt_trans with (a * b).
    - apply Z.mul_le_mono_nonneg_l; lia.
    - apply Z.mul_lt_mono_pos_r; lia. }
  assert (Hlower : (2 ^ (la - lb - 1) < a # den)%Q).
  { replace (la - lb - 1) with (la - (lb + 1)) by lia.
    rewrite pow2_frac by lia.
    unfold Qlt. cbn [Qnum Qden].
    rewrite Z2Pos.id by (apply Z.pow_pos_nonneg; lia). fold b.
    apply Z.lt_le_trans with (2 ^ la * 2 ^ (lb + 1)).
    - apply Z.mul_lt_mono_pos_l; [apply Z.pow_pos_nonneg; lia | lia].
    - apply Z.mul_le_mono_nonneg_r; [apply Z.pow_nonneg; lia | lia]. }
  destruct (Qle_bool (2 ^ (la - lb)) (a # den)) eqn:Htest.
  - apply Qle_bool_iff in Htest. split; [exact Htest | exact Hupper].
  - split.
    + apply Qlt_le_weak. exact Hlower.
    + replace (la - lb - 1 + 1) with (la - lb) by lia.
      apply Qnot_le_lt. intros Hle. apply Qle_bool_iff in Hle. congruence.
Qed.

(** The binade is determined by the value. *)
Lemma binade_unique (x : Q) (j : Z) :
  ~ (x == 0)%Q -> (2 ^ j <= Qabs x)%Q -> (Qabs x < 2 ^ (j + 1))%Q -> binade x = j.
Proof.
  intros Hx Hlo Hhi. destruct (binade_spec x Hx) as [Hlo' Hhi'].
  assert (H1 : binade x < j + 1).
  { apply pow2_lt_inv. eapply Qle_lt_trans; eassumption. }
  assert (H2 : j < binade x + 1).
  { apply pow2_lt_inv. eapply Qle_lt_trans; eassumption. }
  lia.
Qed.

(** Rounding to 53 bits *)

Lemma round53_nonzero (x : Q) :
  ~ (x == 0)%Q ->
  round53 x =
    Qred (inject_Z (round_half_even (x / 2 ^ Z.max (binade x - 52) (-1074)))
          * 2 ^ Z.max (binade x - 52) (-1074)).
Proof.
  intros Hx. unfold round53.
  destruct (Qeq_bool x 0) eqn:H0; [|reflexivity].
  apply Qeq_bool_iff in H0. contradiction.
Qed.

Lemma Qred_inject_Z (z : Z) : Qred (inject_Z z) = inject_Z z.
Proof. apply Qcanon.Qred_identity. cbn. apply Z.gcd_1_r. Qed.

Lemma binade_inject_Z (z : Z) : z <> 0 -> binade (inject_Z z) = Z.log2 (Z.abs z).
Proof.
  intros Hz.
  assert (Ha : 0 < Z.abs z) by lia.
  destruct (Z.log2_spec (Z.abs z) Ha) as [H1 H2].
  assert (Hl : 0 <= Z.log2 (Z.abs z)) by apply Z.log2_nonneg.
  apply binade_unique.
  - intros H. apply Hz. unfold Qeq in H. cbn in H. lia.
  - change (Qabs (inject_Z z)) with (inject_Z (Z.abs z)).
    rewrite <- pow2_inject by exact Hl. rewrite <- Zle_Qle. exact H1.
  - change (Qabs (inject_Z z)) with (inject_Z (Z.abs z)).
    rewrite <- pow2_inject by lia. rewrite <- Zlt_Qlt.
    replace (Z.log2 (Z.abs z) + 1) with (Z.succ (Z.log2 (Z.abs z))) by lia. exact H2.
Qed.

(** Integers below 2^53 in magnitude are their own rounding. *)
Lemma round53_inject_Z (z : Z) :
  Z.abs z < 2 ^ 53 -> round53 (inject_Z z) = inject_Z z.
Proof.
  intros Hz. destruct (Z.eq_dec z 0) as [-> | Hnz]; [reflexivity|].
  assert (Hx : ~ (inject_Z z == 0)%Q).
  { intros H. apply Hnz. unfold Qeq in H. cbn in H. lia. }
  rewrite (round53_nonzero _ Hx), (binade_inject_Z z Hnz).
  set (j := Z.log2 (Z.abs z)).
  assert (Hj0 : 0 <= j) by apply Z.log2_nonneg.
  assert (Hj : j < 53) by (apply Z.log2_lt_pow2; lia).
  replace (Z.max (j - 52) (-1074)) with (j - 52) by lia.
  assert (Hs : (inject_Z z / 2 ^ (j - 52) == inject_Z (z * 2 ^ (52 - j)))%Q).
  { rewrite div_pow2, inject_Z_mult, pow2_inject by lia.
    replace (- (j - 52)) with (52 - j) by lia. reflexivity. }
  rewrite (round_half_even_comp _ _ Hs), round_half_even_Z.
  rewrite <- (Qred_inject_Z z). apply Qred_complete.
  rewrite inject_Z_mult, pow2_inject by lia.
  rewrite <- Qmult_assoc, <- pow2_plus.
  replace (52 - j + (j - 52)) with 0 by lia.
  change (2 ^ 0)%Q with 1%Q. apply Qmult_1_r.
Qed.

Lemma round53_zero (x : Q) : (x == 0)%Q -> round53 x = 0%Q.
Proof.
  intros H. unfold round53.
  destruct (Qeq_bool x 0) eqn:E; [reflexivity|].
  apply Qeq_bool_neq in E. contradiction.
Qed.

(** The rounding of a positive [x] in the binade [k] of the normal range. *)
Lemma round53_binade (x : Q) (k : Z) :
  (2 ^ k <= x)%Q -> (x < 2 ^ (k + 1))%Q -> -1022 <= k ->
  round53 x = Qred (inject_Z (round_half_even (x * 2 ^ (52 - k))) * 2 ^ (k - 52)).
Proof.
  intros Hlo Hhi Hk.
  assert (Hpos : (0 < x)%Q) by (eapply Qlt_le_trans; [apply (pow2_pos k) | exact Hlo]).
  assert (Hx : ~ (x == 0)%Q).
  { intros H. rewrite H in Hpos. discriminate Hpos. }
  assert (Habs : (Qabs x == x)%Q) by (apply Qabs_pos, Qlt_le_weak, Hpos).
  assert (Hb : binade x = k).
  { apply binade_unique; [exact Hx | rewrite Habs; exact Hlo | rewrite Habs; exact Hhi]. }
  rewrite (round53_nonzero x Hx), Hb.
  replace (Z.max (k - 52) (-1074)) with (k - 52) by lia.
  assert (Hs : (x / 2 ^ (k - 52) == x * 2 ^ (52 - k))%Q).
  { rewrite div_pow2. replace (- (k - 52)) with (52 - k) by lia. reflexivity. }
  rewrite (round_half_even_comp _ _ Hs). reflexivity.
Qed.

(** The rounded value stays in the closed binade. *)
Lemma round53_binade_bounds (x : Q) (k : Z) :
  (2 ^ k <= x)%Q -> (x < 2 ^ (k + 1))%Q -> -1022 <= k ->
  (2 ^ k <= round53 x /\ round53 x <= 2 ^ (k + 1))%Q.
Proof.
  intros Hlo Hhi Hk. rewrite (round53_binade x k Hlo Hhi Hk), Qred_correct.
  assert (Hm : 2 ^ 52 <= round_half_even (x * 2 ^ (52 - k)) <= 2 ^ 53).
  { apply round_half_even_bounds.
    - rewrite pow2_inject by lia.
      setoid_replace (2 ^ 52)%Q with (2 ^ k * 2 ^ (52 - k))%Q using relation Qeq.
      + apply Qmult_le_compat_r; [exact Hlo | apply Qlt_le_weak, pow2_pos].
      + rewrite <- pow2_plus. replace (k + (52 - k)) with 52 by lia. reflexivity.
    - rewrite pow2_inject by lia.
      setoid_replace (2 ^ 53)%Q with (2 ^ (k + 1) * 2 ^ (52 - k))%Q using relation Qeq.
      + apply Qmult_le_compat_r; [apply Qlt_le_weak, Hhi | apply Qlt_le_weak, pow2_pos].
      + rewrite <- pow2_plus. replace (k + 1 + (52 - k)) with 53 by lia. reflexivity. }
  destruct Hm as [Hm1 Hm2]. split.
  - setoid_replace (2 ^ k)%Q with (inject_Z (2 ^ 52) * 2 ^ (k - 52))%Q using relation Qeq.
    + apply Qmult_le_compat_r; [rewrite <- Zle_Qle; exact Hm1 | apply Qlt_le_weak, pow2_pos].
    + rewrite pow2_inject by lia. rewrite <- pow2_plus.
      replace (52 + (k - 52)) with k by lia. reflexivity.
  - setoid_replace (2 ^ (k + 1))%Q with (inject_Z (2 ^ 53) * 2 ^ (k - 52))%Q using relation Qeq.
    + apply Qmult_le_compat_r; [rewrite <- Zle_Qle; exact Hm2 | apply Qlt_le_weak, pow2_pos].
    + rewrite pow2_inject by lia. rewrite <- pow2_plus.
      replace (53 + (k - 52)) with (k + 1) by lia. reflexivity.
Qed.

(** In the binade of 64 the representable values are the multiples of
    2^-46, and 95 is one of them. *)
Lemma round53_binade6 (x : Q) :
  (64 <= x)%Q -> (x < 128)%Q ->
  round53 x = Qred (inject_Z (round_half_even (x * inject_Z (2 ^ 46))) / inject_Z (2 ^ 46)).
Proof.
  intros Hlo Hhi.
  rewrite (round53_binade x 6 Hlo Hhi) by lia. reflexivity.
Qed.

(** A quotient of integers, as a fraction. *)
Lemma Qdiv_inject_Z (a n : Z) :
  0 < n -> (inject_Z a / inject_Z n == a # Z.to_pos n)%Q.
Proof.
  intros Hn. rewrite Qmake_Qdiv. rewrite Z2Pos.id by exact Hn. reflexivity.
Qed.

Lemma Qdiv_inject_Z_lt (a n c : Z) :
  0 < n -> (inject_Z a / inject_Z n < inject_Z c)%Q <-> a < c * n.
Proof.
  intros Hn. rewrite (Qdiv_inject_Z a n Hn). unfold Qlt. cbn [Qnum Qden inject_Z].
  rewrite Z2Pos.id by exact Hn. lia.
Qed.


(** The rounded percentage is below 95 exactly when the exact one is:
    95 is representable, and below it the nearest other quotient with a
    denominator under 2^46 is farther away than the spacing 2^-46. *)
Lemma round53_percentage (a n : Z) :
  0 < n < 2 ^ 46 -> 0 <= a <= 100 * n ->
  (0 <= round53 (inject_Z a / inject_Z n) <= 128)%Q
  /\ ((round53 (inject_Z a / inject_Z n) < 95)%Q <-> a < 95 * n).
Proof.
  intros Hn Ha.
  assert (Hn0 : 0 < n) by lia.
  set (x := (inject_Z a / inject_Z n)%Q).
  destruct (Z.eq_dec a 0) as [Ha0 | Ha0].
  { assert (Hz : (x == 0)%Q).
    { unfold x. rewrite (Qdiv_inject_Z a n Hn0). rewrite Ha0. reflexivity. }
    rewrite (round53_zero x Hz). split; [split; discriminate|].
    split; [lia | reflexivity]. }
  assert (Hx : ~ (x == 0)%Q).
  { unfold x. rewrite (Qdiv_inject_Z a n Hn0). unfold Qeq. cbn. lia. }
  assert (Hpos : (0 < x)%Q).
  { unfold x. rewrite (Qdiv_inject_Z a n Hn0). unfold Qlt. cbn. lia. }
  assert (Habs : (Qabs x == x)%Q) by (apply Qabs_pos, Qlt_le_weak, Hpos).
  destruct (binade_spec x Hx) as [Hlo Hhi]. rewrite Habs in Hlo, Hhi.
  set (k := binade x) in *.
  assert (Hx128 : (x < 128)%Q).
  { apply (Qdiv_inject_Z_lt a n 128 Hn0). lia. }
  assert (Hk6 : k < 7).
  { apply pow2_lt_inv. eapply Qle_lt_trans; [exact Hlo | exact Hx128]. }
  assert (Hxlow : (2 ^ (-46) < x)%Q).
  { unfold x. rewrite (Qdiv_inject_Z a n Hn0).
    change (2 ^ (-46))%Q with (1 # 2 ^ 46)%Q. unfold Qlt. cbn [Qnum Qden].
    change (Z.pos (2 ^ 46)) with (2 ^ 46).
    rewrite Z2Pos.id by exact Hn0. lia. }
  assert (Hklow : -47 < k).
  { assert (H : -46 < k + 1); [|lia].
    apply pow2_lt_inv. eapply Qlt_trans; [exact Hxlow | exact Hhi]. }
  destruct (round53_binade_bounds x k Hlo Hhi ltac:(lia)) as [Hr1 Hr2].
  split.
  { split.
    - eapply Qle_trans; [apply Qlt_le_weak, (pow2_pos k) | exact Hr1].
    - eapply Qle_trans; [exact Hr2|]. apply (pow2_le (k + 1) 7). lia. }
  destruct (Z_lt_le_dec k 6) as [Hsmall | Hbig].
  { (* below 64 *)
    split.
    - intros _.
      assert (H : (x < 95)%Q).
      { eapply Qlt_trans; [exact Hhi|].
        eapply Qle_lt_trans; [apply (pow2_le (k + 1) 6); lia | reflexivity]. }
      apply (Qdiv_inject_Z_lt a n 95 Hn0). exact H.
    - intros _. eapply Qle_lt_trans; [exact Hr2|].
      eapply Qle_lt_trans; [apply (pow2_le (k + 1) 6); lia | reflexivity]. }
  assert (Hk : k = 6) by lia. rewrite Hk in Hlo, Hhi.
  rewrite (round53_binade6 x Hlo Hhi), Qred_correct.
  set (m := round_half_even (x * inject_Z (2 ^ 46))).
  assert (Hm : (inject_Z m / inject_Z (2 ^ 46) < 95)%Q <-> m < 95 * 2 ^ 46).
  { apply Qdiv_inject_Z_lt. reflexivity. }
  rewrite Hm. clear Hm.
  assert (Hs : (x * inject_Z (2 ^ 46) == a * 2 ^ 46 # Z.to_pos n)%Q).
  { unfold x. rewrite (Qdiv_inject_Z a n Hn0). unfold Qeq. cbn [Qnum Qden Qmult inject_Z].
    rewrite Pos.mul_1_r. reflexivity. }
  split.
  - intros Hlt. destruct (Z_lt_le_dec a (95 * n)) as [H | H]; [exact H | exfalso].
    assert (Hge : 95 * 2 ^ 46 <= m); [|lia].
    apply (round_half_even_bounds (x * inject_Z (2 ^ 46)) (95 * 2 ^ 46) (128 * 2 ^ 46)).
    + rewrite Hs. unfold Qle. cbn [Qnum Qden inject_Z].
      rewrite Z2Pos.id by exact Hn0. nia.
    + rewrite Hs. unfold Qle. cbn [Qnum Qden inject_Z].
      rewrite Z2Pos.id by exact Hn0. nia.
  - intros Hlt.
    assert (Hle : 0 <= m <= 95 * 2 ^ 46 - 1); [|lia].
    apply (round_half_even_bounds (x * inject_Z (2 ^ 46)) 0 (95 * 2 ^ 46 - 1)).
    + rewrite Hs. unfold Qle. cbn [Qnum Qden inject_Z].
      rewrite Z2Pos.id by exact Hn0. nia.
    + rewrite Hs. unfold Qle. cbn [Qnum Qden inject_Z].
      rewrite Z2Pos.id by exact Hn0. nia.
Qed.

(** Rounding does not tell equal rationals apart. *)
Lemma round53_comp (x y : Q) : (x == y)%Q -> round53 x = round53 y.
Proof.
  intros Hxy. destruct (Qeq_dec x 0) as [Hx | Hx].
  - rewrite (round53_zero x Hx). symmetry. apply round53_zero.
    rewrite <- Hxy. exact Hx.
  - assert (Hy : ~ (y == 0)%Q) by (rewrite <- Hxy; exact Hx).
    assert (Hb : binade x = binade y).
    { apply binade_unique; [exact Hx | |]; rewrite Hxy; apply (binade_spec y Hy). }
    rewrite (round53_nonzero x Hx), (round53_nonzero y Hy), Hb.
    apply Qred_complete.
    assert (Hs : (x / 2 ^ Z.max (binade y - 52) (-1074)
                  == y / 2 ^ Z.max (binade y - 52) (-1074))%Q)
      by (rewrite Hxy; reflexivity).
    rewrite (round_half_even_comp _ _ Hs). reflexivity.
Qed.

Lemma of_Q_comp (x y : Q) : (x == y)%Q -> of_Q x = of_Q y.
Proof. intros H. unfold of_Q. rewrite (round53_comp x y H). reflexivity. Qed.

(** Integers below 2^53 in magnitude convert exactly. *)
Lemma of_Q_inject_Z (z : Z) :
  Z.abs z < 2 ^ 53 -> of_Q (inject_Z z) = Finite (inject_Z z).
Proof.
  intros Hz. unfold of_Q. rewrite (round53_inject_Z z Hz).
  destruct (Qle_bool (2 ^ 1024) (Qabs (inject_Z z))) eqn:E; [|reflexivity].
  exfalso. apply Qle_bool_iff in E.
  change (Qabs (inject_Z z)) with (inject_Z (Z.abs z)) in E.
  rewrite <- pow2_inject in E by lia. rewrite <- Zle_Qle in E.
  assert (H : 2 ^ 53 < 2 ^ 1024) by (apply Z.pow_lt_mono_r; lia). lia.
Qed.

Lemma of_int_small (z : Z) :
  Z.abs z < 2 ^ 53 -> of_int z = Ret (Finite (inject_Z z)).
Proof. intros Hz. unfold of_int. rewrite (of_Q_inject_Z z Hz). reflexivity. Qed.

(** The percentage [d * 100.0 / n] of the code for integer counts
    [0 <= d <= n < 2^46]: the conversions are exact, no operation leaves
    the finite range, and the rounded percentage is below 95 exactly when
    the exact one is. *)
Lemma binary64_percentage (d n : Z) :
  0 <= d <= n -> 0 < n < 2 ^ 46 ->
  exists r,
    of_int d = Ret (Finite (inject_Z d)) /\
    of_int n = Ret (Finite (inject_Z n)) /\
    div (mul (Finite (inject_Z d)) (Finite 100)) (Finite (inject_Z n))
      = Ret (Finite r) /\
    (Qltb r 95 = true <-> d * 100 < 95 * n).
Proof.
  intros Hd Hn.
  destruct (round53_percentage (d * 100) n Hn ltac:(lia)) as [[Hr0 Hr1] Hiff].
  exists (round53 (inject_Z (d * 100) / inject_Z n)).
  split; [apply of_int_small; lia|].
  split; [apply of_int_small; lia|].
  split.
  - unfold mul.
    assert (Hm : (inject_Z d * 100 == inject_Z (d * 100))%Q)
      by (rewrite inject_Z_mult; reflexivity).
    rewrite (of_Q_comp _ _ Hm), (of_Q_inject_Z (d * 100)) by lia.
    unfold div.
    destruct (Qeq_bool (inject_Z n) 0) eqn:E.
    { apply Qeq_bool_iff in E. unfold Qeq in E. cbn in E. lia. }
    unfold of_Q.
    destruct (Qle_bool (2 ^ 1024)
                (Qabs (round53 (inject_Z (d * 100) / inject_Z n)))) eqn:Ho;
      [|reflexivity].
    exfalso. apply Qle_bool_iff in Ho.
    rewrite (Qabs_pos _ Hr0) in Ho.
    assert (H : (2 ^ 1024 <= 128)%Q) by (eapply Qle_trans; eassumption).
    apply (Qle_not_lt _ _ H). apply (pow2_lt 7 1024). lia.
  - rewrite Qltb_lt. exact Hiff.
Qed.

End Binary64Facts.

(** ** The threshold checker *)

Example check_performance_thresholds_violations :
  InBinary64.check_performance_thresholds (Stats (StatsEntry 100 10 50)) idle_world
    = (Ret false,
       World (fun _ => 0%N) 0 []
         [(WARNING, "Performance threshold violations:");
          (WARNING, "  - Success rate (90.0%) below threshold (95.0%)");
          (WARNING, "  - RPS (50.0) below threshold (100)")] []).
Proof. vm_compute. reflexivity. Qed.

Example check_performance_thresholds_no_request :
  fst (InBinary64.check_performance_thresholds (Stats (StatsEntry 0 0 150)) idle_world)
    = Ret true
  /\ fst (InBinary64.check_performance_thresholds (Stats (StatsEntry 0 0 99)) idle_world)
     = Ret false.
Proof. vm_compute. split; reflexivity. Qed.

(** Counts beyond the range of a float cannot be converted. *)
Example check_performance_thresholds_overflow :
  fst (InBinary64.check_performance_thresholds
         (Stats (StatsEntry (10 ^ 309) 0 100)) idle_world)
    = Raise (Exn (OtherError "OverflowError") "int too large to convert to float").
Proof. vm_compute. reflexivity. Qed.

(** A success rate of 95 percent less one request in 2 * 10^17 is rounded
    to 95.0, and the checker returns [True] although the computed rate is
    below 95. *)
Lemma check_performance_thresholds_rounds_to_threshold :
  fst (InBinary64.check_performance_thresholds
         (Stats (StatsEntry 200000000000000000 10000000000000001 100)) idle_world)
    = Ret true
  /\ exists s,
       computed_success_rate 200000000000000000 10000000000000001 = Some s
       /\ (s < 95)%Q.
Proof.
  split; [vm_compute; reflexivity|].
  eexists. split; [reflexivity|]. vm_compute. reflexivity.
Qed.

(** C1: for request and failure counts with
    [0 <= failures <= requests < 2^46] and any requests-per-second value,
    [check_performance_thresholds], computing in binary64, returns [False]
    exactly when the computed success rate is below 95.0 or the RPS is
    below 100, and [True] otherwise; with no request at all no success rate
    is computed and the RPS alone decides. *)
Theorem check_performance_thresholds_decides
    (requests failures : Z) (rps : Q) (w : world) :
  0 <= failures <= requests -> requests < 2 ^ 46 ->
  exists b w',
    InBinary64.check_performance_thresholds (Stats (StatsEntry requests failures rps)) w
      = (Ret b, w') /\
    (b = false <->
       (exists s, computed_success_rate requests failures = Some s /\ (s < 95)%Q)
       \/ (rps < 100)%Q) /\
    (b = true <->
       (forall s, computed_success_rate requests failures = Some s -> (95 <= s)%Q)
       /\ (100 <= rps)%Q) /\
    (requests = 0 -> (b = true <-> (100 <= rps)%Q)).
Proof.
  intros Hrange Hbound.
  unfold InBinary64.check_performance_thresholds, computed_success_rate.
  cbn [total num_requests num_failures total_rps].
  unfold PerformanceThresholds.MIN_SUCCESS_RATE, PerformanceThresholds.MIN_RPS.
  change (inject_Z 100) with 100%Q.
  destruct (Z.gtb_spec requests 0) as [Hpos | Hzero].
  - replace (requests =? 0) with false by (symmetry; apply Z.eqb_neq; lia).
    destruct (binary64_percentage (requests - failures) requests
                ltac:(lia) ltac:(lia))
      as (r & Hd & Hn & Hdiv & Hrate).
    assert (Hiff : Qltb r 95 = true <->
                   (100 * inject_Z (requests - failures) / inject_Z requests < 95)%Q).
    { rewrite Hrate.
      assert (Hq : (100 * inject_Z (requests - failures) / inject_Z requests
                    == inject_Z ((requests - failures) * 100) / inject_Z requests)%Q)
        by (rewrite inject_Z_mult, (Qmult_comm 100); reflexivity).
      rewrite Hq. symmetry.
      apply (Qdiv_inject_Z_lt ((requests - failures) * 100) requests 95). lia. }
    rewrite Hd, Hn. cbv beta iota zeta delta [bind lift ret].
    rewrite Hdiv. cbv beta iota. cbn [Binary64.ltb Binary64.format_1f].
    destruct (Qltb r 95) eqn:Hsr;
      [pose proof (proj1 Hiff eq_refl) as Hlt
      |assert (Hge : (95 <= 100 * inject_Z (requests - failures) / inject_Z requests)%Q)
         by (apply Qnot_lt_le; intros H; apply Hiff in H; discriminate H)];
      (destruct (Qltb rps 100) eqn:Hrps;
        [apply Qltb_lt in Hrps | apply Qltb_ge in Hrps]);
      eexists; eexists; (split; [reflexivity|]);
      (split; [|split]); try (intros ->; lia);
      split; intros H; try reflexivity; try discriminate; eauto.
    + exfalso. destruct H as [H _]. specialize (H _ eq_refl).
      exact (Qlt_not_le _ _ Hlt H).
    + exfalso. destruct H as [H _]. specialize (H _ eq_refl).
      exact (Qlt_not_le _ _ Hlt H).
    + exfalso. destruct H as [_ H]. exact (Qlt_not_le _ _ Hrps H).
    + exfalso. destruct H as [(s & Hs & Hlt) | Hlt].
      * injection Hs as <-. exact (Qlt_not_le _ _ Hlt Hge).
      * exact (Qlt_not_le _ _ Hlt Hrps).
    + split; [|exact Hrps]. intros s Hs. injection Hs as <-. exact Hge.
  - assert (requests = 0) as -> by lia. cbn [Z.eqb].
    cbv beta iota zeta delta [bind ret].
    destruct (Qltb rps 100) eqn:Hrps;
      [apply Qltb_lt in Hrps | apply Qltb_ge in Hrps];
      eexists; eexists; (split; [reflexivity|]);
      (split; [|split]); try intros _;
      split; intros H; try reflexivity; try discriminate; eauto.
    + exfalso. destruct H as [_ H]. exact (Qlt_not_le _ _ Hrps H).
    + exfalso. exact (Qlt_not_le _ _ Hrps H).
    + exfalso. destruct H as [(s & Hs & _) | Hlt]; [discriminate|].
      exact (Qlt_not_le _ _ Hlt Hrps).
    + split; [intros s Hs; discriminate | exact Hrps].
Qed.

Lemma check_performance_thresholds_decides_witness :
  exists b w',
    InBinary64.check_performance_thresholds
      (Stats (StatsEntry 200 20 (150 # 1))) idle_world = (Ret b, w') /\
    (b = false <->
       (exists s, computed_success_rate 200 20 = Some s /\ (s < 95)%Q)
       \/ (150 # 1 < 100)%Q) /\
    (b = true <->
       (forall s, computed_success_rate 200 20 = Some s -> (95 <= s)%Q)
       /\ (100 <= 150 # 1)%Q) /\
    (200 = 0 -> (b = true <-> (100 <= 150 # 1)%Q)).
Proof.
  apply (check_performance_thresholds_decides 200 20 (150 # 1) idle_world);
    [lia | reflexivity].
Defined.

(** ** The weighted choice helper *)

(** The bisection is over once [hi - lo] halvings are done: more fuel does
    not change its result, which lies between [lo] and [hi]. *)
Lemma bisect_right_stable (fuel : nat) (a : list Z) (x : Q) (lo hi : nat) :
  (hi - lo <= fuel)%nat ->
  Random.bisect_right (S fuel) a x lo hi = Random.bisect_right fuel a x lo hi.
Proof.
  revert lo hi. induction fuel as [|fuel IH]; intros lo hi Hfuel.
  - cbn [Random.bisect_right]. destruct (Nat.ltb_spec lo hi); [lia | reflexivity].
  - change (Random.bisect_right (S (S fuel)) a x lo hi)
      with (if (lo <? hi)%nat then
              if Qltb x (inject_Z (nth ((lo + hi) / 2) a 0))
              then Random.bisect_right (S fuel) a x lo ((lo + hi) / 2)
              else Random.bisect_right (S fuel) a x (S ((lo + hi) / 2)) hi
            else lo).
    change (Random.bisect_right (S fuel) a x lo hi)
      with (if (lo <? hi)%nat then
              if Qltb x (inject_Z (nth ((lo + hi) / 2) a 0))
              then Random.bisect_right fuel a x lo ((lo + hi) / 2)
              else Random.bisect_right fuel a x (S ((lo + hi) / 2)) hi
            else lo).
    destruct (Nat.ltb_spec lo hi) as [Hlt | Hge]; [|reflexivity].
    assert (Hmid : (lo <= (lo + hi) / 2 < hi)%nat).
    { split.
      - apply Nat.div_le_lower_bound; lia.
      - apply Nat.Div0.div_lt_upper_bound; lia. }
    destruct (Qltb x _); apply IH; lia.
Qed.

Lemma bisect_right_range (fuel : nat) (a : list Z) (x : Q) (lo hi : nat) :
  (lo <= hi)%nat -> (lo <= Random.bisect_right fuel a x lo hi <= hi)%nat.
Proof.
  revert lo hi. induction fuel as [|fuel IH]; intros lo hi Hle;
    cbn [Random.bisect_right]; [lia|].
  destruct (Nat.ltb_spec lo hi) as [Hlt | Hge]; [|lia].
  assert (Hmid : (lo <= (lo + hi) / 2 < hi)%nat).
  { split.
    - apply Nat.div_le_lower_bound; lia.
    - apply Nat.Div0.div_lt_upper_bound; lia. }
  destruct (Qltb x _).
  - specialize (IH lo ((lo + hi) / 2)%nat). lia.
  - specialize (IH (S ((lo + hi) / 2)) hi). lia.
Qed.

Lemma scaled_draw_below (r : N) (total : Z) :
  0 < total ->
  Qltb (Qmake (Z.of_N r mod 2 ^ 53) (2 ^ 53) * inject_Z total) (inject_Z total) = true.
Proof.
  intros Hpos. apply Qltb_lt.
  destruct (unit_draw_bounds r) as [_ Hlt].
  rewrite <- (Qmult_1_l (inject_Z total)) at 2.
  apply Qmult_lt_compat_r; [|exact Hlt].
  unfold Qlt. simpl. lia.
Qed.

(** C6: called with the two choices [(A, 1)] and [(B, 0)], [weighted_choice]
    returns [A] whatever the random source yields. *)
Theorem weighted_choice_zero_weight_never_selected
    {A : Type} (a b : A) (w : world) :
  exists w', weighted_choice [(a, 1); (b, 0)] w = (Ret a, w').
Proof.
  unfold weighted_choice, zip_star, lift, bind at 1.
  cbn [map fst snd].
  unfold Random.choices1, Random.accumulate.
  change (Random.accumulate_from 0 [1; 0]) with [1; 1].
  cbn [length Nat.eqb negb last Z.leb Z.compare Nat.sub Random.bisect_right
       Nat.ltb Nat.leb].
  unfold Random.random, Random.next, bind, ret.
  change ((0 + 1) / 2)%nat with 0%nat. cbn [nth].
  rewrite (scaled_draw_below _ 1) by lia.
  eexists. reflexivity.
Qed.

Lemma length_accumulate_from (acc : Z) (weights : list Z) :
  length (Random.accumulate_from acc weights) = length weights.
Proof.
  revert acc. induction weights as [|x rest IH]; intros acc; cbn; [reflexivity|].
  f_equal. apply IH.
Qed.

(** The last cumulative weight is the total of the weights. *)
Lemma last_accumulate_from (acc x : Z) (rest : list Z) :
  last (Random.accumulate_from acc (x :: rest)) = Some (acc + foldr Z.add 0 (x :: rest)).
Proof.
  revert acc x. induction rest as [|y rest IH]; intros acc x.
  - cbn. f_equal. lia.
  - change (Random.accumulate_from acc (x :: y :: rest))
      with ((acc + x) :: Random.accumulate_from (acc + x) (y :: rest)).
    assert (Hne : exists z zs, Random.accumulate_from (acc + x) (y :: rest) = z :: zs)
      by (cbn; eauto).
    destruct Hne as (z & zs & Hz).
    transitivity (last (Random.accumulate_from (acc + x) (y :: rest))).
    { rewrite Hz. reflexivity. }
    rewrite IH. f_equal. cbn. lia.
Qed.

Lemma positive_total_has_positive_weight (weights : list Z) :
  0 < foldr Z.add 0 weights -> exists x, In x weights /\ 0 < x.
Proof.
  induction weights as [|x rest IH]; cbn; [lia|].
  intros Hsum. destruct (Z.ltb_spec 0 x) as [Hx | Hx].
  - exists x. auto.
  - destruct IH as (y & Hy & Hpos); [lia|]. exists y. auto.
Qed.

Lemma nonnegative_weights_total (weights : list Z) (x : Z) :
  (forall y, In y weights -> 0 <= y) -> In x weights -> x <= foldr Z.add 0 weights.
Proof.
  induction weights as [|y rest IH]; cbn; [tauto|].
  intros Hnn [-> | Hin].
  - assert (0 <= foldr Z.add 0 rest); [|lia].
    clear IH. induction rest as [|z rest IH]; cbn; [lia|].
    assert (0 <= z) by (apply Hnn; cbn; auto).
    assert (0 <= foldr Z.add 0 rest); [|lia].
    apply IH. intros v [-> | Hv]; apply Hnn; cbn; auto.
  - assert (0 <= y) by (apply Hnn; auto).
    assert (x <= foldr Z.add 0 rest); [|lia].
    apply IH; [|exact Hin]. intros v Hv. apply Hnn. auto.
Qed.

(** What [weighted_choice] does on a list that is not empty: it raises when
    the total weight is not positive, and otherwise returns one of the
    choices after one draw. *)
Lemma weighted_choice_nonempty {A : Type} (p : A * Z) (l : list (A * Z)) (w : world) :
  exists a, In a (map fst (p :: l)) /\
    weighted_choice (p :: l) w =
      if foldr Z.add 0 (map snd (p :: l)) <=? 0 then
        (Raise (Exn ValueError "Total of weights must be greater than zero"), w)
      else (Ret a, World (entropy w) (S (pos w)) (marks w) (logs w) (sent w)).
Proof.
  unfold weighted_choice, zip_star, lift, bind at 1.
  cbn [fst snd]. unfold Random.choices1, Random.accumulate.
  rewrite length_accumulate_from, !length_map, Nat.eqb_refl.
  cbn [negb map]. rewrite last_accumulate_from.
  rewrite (Z.add_0_l (foldr Z.add 0 (p.2 :: map snd l))).
  destruct (foldr Z.add 0 (p.2 :: map snd l) <=? 0).
  - exists p.1. split; [left; reflexivity | reflexivity].
  - unfold Random.random, Random.next, bind, ret.
    eexists. split; [|reflexivity].
    match goal with
    | |- In (nth ?i ?pop ?x) _ => destruct (nth_in_or_default i pop x) as [H | H]
    end.
    + exact H.
    + rewrite H. left. reflexivity.
Qed.

(** C10: on the empty list [weighted_choice] raises (the unpacking of the
    transposed list finds no rows) and returns nothing; whenever it returns
    a choice, the list was not empty and held a positive weight; and a list
    of non-negative weights with a positive one always gets a choice. *)
Theorem weighted_choice_total_only_with_positive_weight
    {A : Type} (l : list (A * Z)) (w : world) :
  (l = [] ->
   weighted_choice l w
     = (Raise (Exn ValueError "not enough values to unpack (expected 2, got 0)"), w))
  /\ (forall a w', weighted_choice l w = (Ret a, w') ->
        l <> [] /\ exists c wt, In (c, wt) l /\ 0 < wt)
  /\ (l <> [] -> (forall c wt, In (c, wt) l -> 0 <= wt) ->
      (exists c wt, In (c, wt) l /\ 0 < wt) ->
      exists a w', weighted_choice l w = (Ret a, w') /\ In a (map fst l)).
Proof.
  split; [|split].
  - intros ->. reflexivity.
  - intros a w' Hret. destruct l as [|p l]; [discriminate|].
    split; [discriminate|].
    destruct (weighted_choice_nonempty p l w) as (a' & _ & Hcases).
    destruct (Z.leb_spec (foldr Z.add 0 (map snd (p :: l))) 0) as [Hle | Hlt].
    + rewrite Hcases in Hret. discriminate.
    + destruct (positive_total_has_positive_weight _ Hlt) as (x & Hin & Hpos).
      apply in_map_iff in Hin. destruct Hin as ([c wt] & Heq & Hin).
      cbn in Heq. subst x. eauto.
  - intros Hne Hnn (c & wt & Hin & Hpos). destruct l as [|p l]; [congruence|].
    destruct (weighted_choice_nonempty p l w) as (a & Ha & Hcases).
    destruct (Z.leb_spec (foldr Z.add 0 (map snd (p :: l))) 0) as [Hle | Hlt].
    + exfalso.
      assert (wt <= foldr Z.add 0 (map snd (p :: l))); [|lia].
      apply nonnegative_weights_total.
      * intros y Hy. apply in_map_iff in Hy. destruct Hy as ([c' wt'] & Heq & Hy).
        cbn in Heq. subst y. eapply Hnn, Hy.
      * apply in_map_iff. exists (c, wt). auto.
    + eauto.
Qed.

Lemma weighted_choice_total_only_with_positive_weight_witness :
  (exists a w', weighted_choice [("A", 2); ("B", 0)] idle_world = (Ret a, w')
                /\ In a (map fst [("A", 2); ("B", 0)]))
  /\ weighted_choice (@nil (string * Z)) idle_world
       = (Raise (Exn ValueError "not enough values to unpack (expected 2, got 0)"),
          idle_world).
Proof.
  destruct (weighted_choice_total_only_with_positive_weight
              [("A", 2); ("B", 0)] idle_world) as (_ & _ & Htotal).
  destruct (weighted_choice_total_only_with_positive_weight
              (@nil (string * Z)) idle_world) as (Hempty & _ & _).
  split.
  - apply Htotal.
    + discriminate.
    + intros c wt [H | [H | []]]; injection H as <- <-; lia.
    + exists "A", 2. split; [left; reflexivity | lia].
  - apply Hempty. reflexivity.
Defined.

(** ** The payload generators *)

(** [random.randint(a, b)] consumes one raw outcome. *)
Lemma randint_run (a b : Z) (w : world) :
  Random.randint a b w
    = (Ret (a + Z.of_N (entropy w (pos w)) mod (b - a + 1)),
       World (entropy w) (S (pos w)) (marks w) (logs w) (sent w)).
Proof. reflexivity. Qed.

Lemma randint_range (a b : Z) (r : N) :
  a <= b -> a <= a + Z.of_N r mod (b - a + 1) <= b.
Proof.
  intros Hab.
  assert (0 <= Z.of_N r mod (b - a + 1) < b - a + 1) by (apply Z.mod_pos_bound; lia).
  lia.
Qed.

(** The redraw loop never raises; when it ends, the two ids differ; it only
    touches the random source. *)
Lemma redraw_distinct (fuel : nat) (from_account to_account : Z) (w : world) :
  exists r w',
    redraw fuel from_account to_account w = (Ret r, w') /\
    entropy w' = entropy w /\
    (forall t, r = Some t -> t <> from_account).
Proof.
  revert to_account w. induction fuel as [|fuel IH]; intros to_account w.
  - cbn [redraw]. destruct (Z.eqb_spec to_account from_account) as [Heq | Hne].
    + eexists; eexists. split; [reflexivity|]. split; [reflexivity|]. discriminate.
    + eexists; eexists. split; [reflexivity|]. split; [reflexivity|].
      intros t Ht. injection Ht as <-. exact Hne.
  - cbn [redraw]. destruct (Z.eqb_spec to_account from_account) as [Heq | Hne].
    + rewrite bind_run, randint_run.
      destruct (IH (1 + Z.of_N (entropy w (pos w)) mod (100 - 1 + 1))
                   (World (entropy w) (S (pos w)) (marks w) (logs w) (sent w)))
        as (r & w' & Hrun & Hent & Hr).
      exists r, w'. split; [exact Hrun|]. split; [exact Hent | exact Hr].
    + eexists; eexists. split; [reflexivity|]. split; [reflexivity|].
      intros t Ht. injection Ht as <-. exact Hne.
Qed.

(** The loop ends as soon as a draw differs from [from_account]: if the
    current candidate differs, or one of the next [fuel] draws does, a
    value is returned. *)
Lemma redraw_returns (fuel : nat) (from_account to_account : Z) (w : world) :
  (to_account <> from_account \/
   exists j, (j < fuel)%nat /\
     1 + Z.of_N (entropy w (pos w + j)%nat) mod 100 <> from_account) ->
  exists t w', redraw fuel from_account to_account w = (Ret (Some t), w').
Proof.
  revert to_account w. induction fuel as [|fuel IH]; intros to_account w Hsome.
  - destruct Hsome as [Hne | (j & Hj & _)]; [|lia].
    cbn [redraw]. destruct (Z.eqb_spec to_account from_account); [contradiction|].
    eauto.
  - cbn [redraw]. destruct (Z.eqb_spec to_account from_account) as [Heq | Hne];
      [|eauto].
    destruct Hsome as [Hne | (j & Hj & Hdiff)]; [contradiction|].
    rewrite bind_run, randint_run.
    change (100 - 1 + 1) with 100.
    apply IH. cbn [entropy pos].
    destruct j as [|j].
    + left. rewrite Nat.add_0_r in Hdiff. exact Hdiff.
    + right. exists j. split; [lia|].
      replace (S (pos w) + j)%nat with (pos w + S j)%nat by lia. exact Hdiff.
Qed.

(** C3: every dictionary that [generate_transfer_data] returns has
    [fromAccountId != toAccountId], whatever the random source yields; the
    function never raises, and it does return a dictionary as soon as one
    of the draws for the second account differs from the first account. *)
Theorem generate_transfer_data_distinct_accounts (fuel : nat) (w : world) :
  (exists r w', generate_transfer_data fuel w = (Ret r, w') /\
     forall d, r = Some d -> fromAccountId d <> toAccountId d)
  /\ (forall j, (j <= fuel)%nat ->
        1 + Z.of_N (entropy w (pos w + 1 + j)%nat) mod 100
          <> 1 + Z.of_N (entropy w (pos w)) mod 100 ->
        exists d w', generate_transfer_data fuel w = (Ret (Some d), w')).
Proof.
  unfold generate_transfer_data.
  rewrite bind_run, randint_run, bind_run, randint_run.
  cbn [entropy pos marks logs sent].
  change (100 - 1 + 1) with 100.
  set (from_account := 1 + Z.of_N (entropy w (pos w)) mod 100).
  set (to_account := 1 + Z.of_N (entropy w (S (pos w))) mod 100).
  set (w2 := World (entropy w) (S (S (pos w))) (marks w) (logs w) (sent w)).
  split.
  - destruct (redraw_distinct fuel from_account to_account w2)
      as (r & w' & Hrun & _ & Hr).
    rewrite bind_run, Hrun. destruct r as [t|].
    + eexists; eexists. split; [reflexivity|].
      intros d Hd. injection Hd as <-. cbn. intros Heq.
      apply (Hr t eq_refl). symmetry. exact Heq.
    + eexists; eexists. split; [reflexivity|]. discriminate.
  - intros j Hj Hdiff.
    destruct (redraw_returns fuel from_account to_account w2) as (t & w' & Hrun).
    { destruct j as [|j].
      - left. unfold to_account.
        replace (S (pos w)) with (pos w + 1 + 0)%nat by lia. exact Hdiff.
      - right. exists j. split; [lia|]. unfold w2. cbn [entropy pos].
        replace (S (S (pos w)) + j)%nat with (pos w + 1 + S j)%nat by lia.
        exact Hdiff. }
    rewrite bind_run, Hrun. eexists; eexists. reflexivity.
Qed.

Lemma generate_transfer_data_distinct_accounts_witness :
  exists d w',
    generate_transfer_data 1 (World (fun i => N.of_nat i) 0 [] [] []) = (Ret (Some d), w').
Proof.
  destruct (generate_transfer_data_distinct_accounts
              1 (World (fun i => N.of_nat i) 0 [] [] [])) as [_ Hreturns].
  apply (Hreturns 0%nat).
  - lia.
  - vm_compute. discriminate.
Defined.

(** [random.uniform(a, b)] stays between its bounds. *)
Lemma uniform_draw_bounds (a b : Q) (r : N) :
  (a <= b)%Q ->
  (a <= a + (b - a) * Qmake (Z.of_N r mod 2 ^ 53) (2 ^ 53)
   /\ a + (b - a) * Qmake (Z.of_N r mod 2 ^ 53) (2 ^ 53) <= b)%Q.
Proof.
  intros Hab. destruct (unit_draw_bounds r) as [H0 H1].
  set (u := Qmake (Z.of_N r mod 2 ^ 53) (2 ^ 53)) in *.
  assert (Hd : (0 <= b - a)%Q).
  { apply (Qplus_le_l _ _ a). ring_simplify. exact Hab. }
  split.
  - rewrite <- (Qplus_0_r a) at 1. apply Qplus_le_r.
    apply Qmult_le_0_compat; assumption.
  - assert (Hm : ((b - a) * u <= (b - a) * 1)%Q).
    { rewrite !(Qmult_comm (b - a)). apply Qmult_le_compat_r; [|exact Hd].
      apply Qlt_le_weak, H1. }
    apply (Qle_trans _ (a + (b - a) * 1)); [apply Qplus_le_r, Hm|].
    ring_simplify. apply Qle_refl.
Qed.

(** [round(x, 2)] of a value between two integers is a number of
    hundredths between the same integers. *)
Lemma py_round_2_bounds (x : Q) (a b : Z) :
  (inject_Z a <= x)%Q -> (x <= inject_Z b)%Q ->
  exists n : Z,
    py_round x 2 = Qmake n 100 /\ 100 * a <= n <= 100 * b /\
    (inject_Z a <= py_round x 2)%Q /\ (py_round x 2 <= inject_Z b)%Q.
Proof.
  intros Ha Hb. unfold py_round.
  change (10 ^ Z.of_nat 2) with 100. change (Z.to_pos 100) with 100%positive.
  assert (Hn : 100 * a <= round_half_even (x * inject_Z 100) <= 100 * b).
  { apply round_half_even_bounds.
    - rewrite inject_Z_mult, Qmult_comm.
      apply Qmult_le_compat_r; [exact Ha | unfold Qle; simpl; lia].
    - rewrite inject_Z_mult, (Qmult_comm (inject_Z 100)).
      apply Qmult_le_compat_r; [exact Hb | unfold Qle; simpl; lia]. }
  exists (round_half_even (x * inject_Z 100)).
  split; [reflexivity|]. split; [exact Hn|].
  unfold Qle. simpl Qnum. simpl Qden. lia.
Qed.

Lemma choice_status_run (w : world) :
  exists st,
    Random.choice ["ACTIVE"; "ACTIVE"; "ACTIVE"; "SUSPENDED"] w
      = (Ret st, World (entropy w) (S (pos w)) (marks w) (logs w) (sent w)) /\
    In st ["ACTIVE"; "ACTIVE"; "ACTIVE"; "SUSPENDED"].
Proof.
  unfold Random.choice. rewrite bind_run. unfold Random.next, ret.
  eexists. split; [reflexivity|].
  match goal with
  | |- In (nth ?i ?l ?x) _ => destruct (nth_in_or_default i l x) as [H | H]
  end.
  - exact H.
  - rewrite H. left. reflexivity.
Qed.

(** C7: [generate_account_data] always returns a dictionary; its balance
    lies in the closed interval from 100 to 10000 and is a whole number of
    hundredths (it is [round(x, 2)] of the uniform draw), and its status is
    an element of the four-element list, so either ACTIVE or SUSPENDED. *)
Theorem generate_account_data_ranges (w : world) :
  exists d w',
    generate_account_data w = (Ret d, w') /\
    (100 <= balance d)%Q /\ (balance d <= 10000)%Q /\
    (exists n : Z, balance d = Qmake n 100 /\ 10000 <= n <= 1000000) /\
    In (status d) ["ACTIVE"; "ACTIVE"; "ACTIVE"; "SUSPENDED"] /\
    (status d = "ACTIVE" \/ status d = "SUSPENDED").
Proof.
  unfold generate_account_data.
  rewrite bind_run, randint_run, bind_run, randint_run, bind_run.
  unfold Random.uniform, Random.random. rewrite !bind_run.
  unfold Random.next, ret. cbn [entropy pos marks logs sent].
  rewrite bind_run.
  match goal with
  | |- context [Random.choice _ ?w1] =>
      destruct (choice_status_run w1) as (st & Hrun & Hin)
  end.
  rewrite Hrun.
  match goal with
  | |- context [py_round ?x 2] =>
      destruct (py_round_2_bounds x 100 10000) as (n & Hn & Hrange & Hlo & Hhi)
  end.
  { apply (uniform_draw_bounds 100 10000). unfold Qle. simpl. lia. }
  { apply (uniform_draw_bounds 100 10000). unfold Qle. simpl. lia. }
  eexists; eexists. split; [reflexivity|]. cbn [balance status].
  split; [exact Hlo|]. split; [exact Hhi|].
  split; [exists n; split; [exact Hn | lia]|].
  split; [exact Hin|].
  destruct Hin as [<- | [<- | [<- | [<- | []]]]]; auto.
Qed.

(** ** The scenario tasks *)


(** C4: for [test_pooled_connections], a 200 response whose JSON body has
    [speedupFactor] equal to 3.0 is marked success, and one with
    [speedupFactor] equal to 1.0 is marked failure; in general the mark is
    a success exactly when the factor is strictly greater than 2.0. *)
Theorem test_pooled_connections_speedup
    (resp : response) (d : gmap string value) (q : Q) (w : world) :
  status_code resp = 200 ->
  json resp = Ret (VDict d) ->
  d !! "speedupFactor" = Some (VNum q) ->
  exists m w',
    ConnectionPoolingTasks.test_pooled_connections (mocked resp) w = (Ret tt, w') /\
    marks w' = marks w ++ [m] /\
    recorded w' = Some m /\
    (m = Success <-> (2 < q)%Q) /\
    ((q == 3)%Q -> m = Success) /\
    ((q == 1)%Q ->
     m = Failure ("Insufficient speedup: " +:+ format_1f q +:+ "x (expected > 2x)")).
Proof.
  intros Hs Hj Hd.
  unfold ConnectionPoolingTasks.test_pooled_connections. run_monad.
  rewrite Hs, Hj. change (200 =? 200) with true. cbv beta iota. rewrite Hd.
  destruct (Qltb 2 q) eqn:Hq; [apply Qltb_lt in Hq | apply Qltb_ge in Hq];
    eexists; eexists; (split; [reflexivity|]); (split; [reflexivity|]);
    (split; [unfold recorded; cbn [marks]; apply last_snoc|]).
  - split; [tauto|]. split; [reflexivity|].
    intros H1. exfalso. rewrite H1 in Hq. revert Hq. unfold Qlt. simpl. lia.
  - split; [|split; [|reflexivity]].
    + split; [discriminate|]. intros Hlt. exfalso. exact (Qlt_not_le _ _ Hlt Hq).
    + intros H3. exfalso. rewrite H3 in Hq. revert Hq. unfold Qle. simpl. lia.
Qed.

Lemma test_pooled_connections_speedup_witness :
  exists m w',
    ConnectionPoolingTasks.test_pooled_connections
      (mocked (Response 200 (Ret "") (Ret (VDict (<["speedupFactor" := VNum 3]> ∅)))))
      idle_world = (Ret tt, w') /\
    marks w' = marks idle_world ++ [m] /\
    recorded w' = Some m /\
    (m = Success <-> (2 < 3)%Q) /\
    ((3 == 3)%Q -> m = Success) /\
    ((3 == 1)%Q ->
     m = Failure ("Insufficient speedup: " +:+ format_1f 3 +:+ "x (expected > 2x)")).
Proof.
  apply (test_pooled_connections_speedup
           (Response 200 (Ret "") (Ret (VDict (<["speedupFactor" := VNum 3]> ∅))))
           (<["speedupFactor" := VNum 3]> ∅) 3 idle_world);
    reflexivity.
Defined.

(** The two mocked bodies of the specification, evaluated. *)
Example test_pooled_connections_on_3 :
  marks (snd (ConnectionPoolingTasks.test_pooled_connections
    (mocked (Response 200 (Ret "") (Ret (VDict (<["speedupFactor" := VNum 3]> ∅)))))
    idle_world)) = [Success].
Proof. vm_compute. reflexivity. Qed.

Example test_pooled_connections_on_1 :
  marks (snd (ConnectionPoolingTasks.test_pooled_connections
    (mocked (Response 200 (Ret "") (Ret (VDict (<["speedupFactor" := VNum 1]> ∅)))))
    idle_world)) = [Failure "Insufficient speedup: 1.0x (expected > 2x)"].
Proof. vm_compute. reflexivity. Qed.

(** C5: for [test_indexed_query_explain], a 200 response whose JSON body
    has [usedIndex] false is marked failure, and one with [usedIndex] true
    is marked success. *)
Theorem test_indexed_query_explain_used_index
    (resp : response) (d : gmap string value) (used_index : bool) (w : world) :
  status_code resp = 200 ->
  json resp = Ret (VDict d) ->
  d !! "usedIndex" = Some (VBool used_index) ->
  exists w',
    IndexingTasks.test_indexed_query_explain (mocked resp) w = (Ret tt, w') /\
    marks w' =
      marks w ++ [if used_index then Success else Failure "Query did not use index"] /\
    recorded w' =
      Some (if used_index then Success else Failure "Query did not use index").
Proof.
  intros Hs Hj Hd.
  unfold IndexingTasks.test_indexed_query_explain. run_monad.
  rewrite Hs, Hj. change (200 =? 200) with true. cbv beta iota. rewrite Hd.
  cbn [truthy].
  destruct used_index;
    eexists; (split; [reflexivity|]); (split; [reflexivity|]);
    unfold recorded; cbn [marks]; apply last_snoc.
Qed.

Lemma test_indexed_query_explain_used_index_witness :
  exists w',
    IndexingTasks.test_indexed_query_explain
      (mocked (Response 200 (Ret "") (Ret (VDict (<["usedIndex" := VBool false]> ∅)))))
      idle_world = (Ret tt, w') /\
    marks w' = marks idle_world ++ [Failure "Query did not use index"] /\
    recorded w' = Some (Failure "Query did not use index").
Proof.
  apply (test_indexed_query_explain_used_index
           (Response 200 (Ret "") (Ret (VDict (<["usedIndex" := VBool false]> ∅))))
           (<["usedIndex" := VBool false]> ∅) false idle_world);
    reflexivity.
Defined.

(** ** The request wrapper *)

Lemma setdefault_lookup (key : string) (v : value) (kwargs : gmap string value)
    (k : string) :
  Locustfile.setdefault key v kwargs !! k =
    match kwargs !! k with
    | Some x => Some x
    | None => if decide (key = k) then Some v else None
    end.
Proof.
  unfold Locustfile.setdefault. destruct (kwargs !! key) as [x|] eqn:Hkey.
  - destruct (kwargs !! k) as [y|] eqn:Hk; [reflexivity|].
    destruct (decide (key = k)) as [-> | Hne]; [congruence | reflexivity].
  - rewrite lookup_insert. destruct (decide (key = k)) as [-> | Hne].
    + rewrite Hkey. reflexivity.
    + destruct (kwargs !! k); reflexivity.
Qed.

(** The [catch_response] that [make_request] passes on: the caller's, or
    [True]. *)
Lemma make_request_catch_response (kwargs : gmap string value) :
  setdefault "catch_response" (VBool true)
    (setdefault "headers" (VDict OltpDemoUser.headers) kwargs) !! "catch_response"
  = match kwargs !! "catch_response" with
    | Some v => Some v
    | None => Some (VBool true)
    end.
Proof.
  rewrite !setdefault_lookup. destruct (kwargs !! "catch_response"); [reflexivity|].
  destruct (decide ("headers" = "catch_response")) as [Heq | _]; [discriminate Heq|].
  destruct (decide ("catch_response" = "catch_response")); [reflexivity | congruence].
Qed.

(** Either both marking methods are there, or none is. *)
Lemma marking_method_cases (kwargs : gmap string value) :
  (forall attr w, marking_method kwargs attr w = (Ret tt, w))
  \/ (forall attr w,
        marking_method kwargs attr w
        = (Raise (Exn AttributeError
                    ("'Response' object has no attribute '" +:+ attr +:+ "'")), w)).
Proof.
  unfold marking_method. destruct (kwargs !! "catch_response") as [v|].
  - destruct (truthy v); [left | right]; reflexivity.
  - right. reflexivity.
Qed.

(** They are there unless the caller gives a false [catch_response]. *)
Lemma marking_method_allowed (kwargs : gmap string value) (attr : string) (w : world) :
  (forall v, kwargs !! "catch_response" = Some v -> truthy v = true) ->
  marking_method
    (setdefault "catch_response" (VBool true)
       (setdefault "headers" (VDict OltpDemoUser.headers) kwargs)) attr w
  = (Ret tt, w).
Proof.
  intros Hcr. unfold marking_method. rewrite make_request_catch_response.
  destruct (kwargs !! "catch_response") as [v|] eqn:Hk.
  - rewrite (Hcr v eq_refl). reflexivity.
  - reflexivity.
Qed.

Example make_request_not_found :
  let run := OltpDemoUser.make_request (mocked (Response 404 (Ret "") (Ret VNone)))
               "GET" "/actuator/info" None ∅ idle_world in
  fst run = Ret None
  /\ marks (snd run) = [Failure "Not found: /actuator/info"]
  /\ map req_name (sent (snd run)) = ["GET /actuator/info"].
Proof. vm_compute. repeat split. Qed.

(** The message of a server error keeps the first 100 code points of the
    body. *)
Example make_request_server_error :
  let run := OltpDemoUser.make_request
               (mocked (Response 500 (Ret "déjà vu") (Ret VNone)))
               "GET" "/actuator/info" None ∅ idle_world in
  marks (snd run) = [Failure "Server error: déjà vu"]
  /\ str_take 3 "déjà vu" = "déj" /\ str_take 4 "déjà vu" = "déjà".
Proof. vm_compute. repeat split. Qed.

(** A caller that passes [catch_response=False] gets the plain response
    from the client: the first marking call fails with [AttributeError], the
    handler's marking call fails in the same way, and the exception leaves
    [make_request] with nothing marked. *)
Lemma make_request_without_catch_response :
  let run := OltpDemoUser.make_request
               (mocked (Response 200 (Ret "UP") (Ret VNone)))
               "GET" "/actuator/health" (Some "Health Check")
               (<["catch_response" := VBool false]> ∅) idle_world in
  (exists msg, fst run = Raise (Exn AttributeError msg))
  /\ marks (snd run) = []
  /\ length (sent (snd run)) = 1%nat.
Proof.
  vm_compute. split; [eexists; reflexivity|]. split; reflexivity.
Qed.

(** C2: when the caller leaves [catch_response] unset, or gives it a true
    value, [make_request] issues one request and never raises while it
    classifies the response: status 200 is marked success and the response
    is returned; 500 is marked failure with a server-error message, 404
    with a not-found message, any other status with an unexpected-status
    message; an exception raised during the classification (reading the
    body of a 500 response) is caught and marked as a failure; in all the
    failure cases the result is [None]. *)
Theorem make_request_classifies
    (self : client) (method endpoint : string) (name : option string)
    (kwargs : gmap string value) (w : world) :
  (forall v, kwargs !! "catch_response" = Some v -> truthy v = true) ->
  exists req r m w',
    OltpDemoUser.make_request self method endpoint name kwargs w = (Ret r, w') /\
    sent w' = sent w ++ [req] /\
    marks w' = marks w ++ [m] /\
    req_method req = method /\ req_url req = endpoint /\
    (status_code (self req) = 200 -> m = Success /\ r = Some (self req)) /\
    (status_code (self req) = 500 ->
     r = None /\
     (forall body, text (self req) = Ret body ->
        m = Failure ("Server error: " +:+ str_take 100 body)) /\
     (forall e, text (self req) = Raise e ->
        m = Failure ("Exception: " +:+ exn_str e))) /\
    (status_code (self req) = 404 ->
     r = None /\ m = Failure ("Not found: " +:+ endpoint)) /\
    (status_code (self req) <> 200 -> status_code (self req) <> 500 ->
     status_code (self req) <> 404 ->
     r = None /\
     m = Failure ("Unexpected status: " +:+ pretty (status_code (self req)))).
Proof.
  intros Hcr.
  pose proof (fun attr w0 => marking_method_allowed kwargs attr w0 Hcr) as Hmark.
  unfold OltpDemoUser.make_request. run_effects.
  match goal with |- context [self ?q] => set (req := q) end.
  exists req.
  destruct (Z.eqb_spec (status_code (self req)) 200) as [H200 | H200];
    [|destruct (Z.eqb_spec (status_code (self req)) 500) as [H500 | H500];
      [destruct (text (self req)) as [body | e] eqn:Htext
      |destruct (Z.eqb_spec (status_code (self req)) 404) as [H404 | H404]]];
    rewrite ?Hmark; cbv beta iota; rewrite ?Htext, ?Hmark;
    eexists; eexists; eexists;
    (split; [reflexivity|]); (split; [reflexivity|]); (split; [reflexivity|]);
    (split; [reflexivity|]); (split; [reflexivity|]);
    repeat split; try congruence; try (intros; lia).
Qed.

Lemma make_request_classifies_witness :
  exists req r w',
    OltpDemoUser.make_request
      (mocked (Response 500 (Raise (Exn (OtherError "ChunkedEncodingError")
                                         "Connection broken")) (Ret VNone)))
      "GET" "/actuator/health" (Some "Health Check")
      (<["catch_response" := VNum 1]> ∅) idle_world = (Ret r, w') /\
    sent w' = [req] /\
    marks w' = [Failure "Exception: Connection broken"] /\
    r = None.
Proof.
  destruct (make_request_classifies
              (mocked (Response 500 (Raise (Exn (OtherError "ChunkedEncodingError")
                                                 "Connection broken")) (Ret VNone)))
              "GET" "/actuator/health" (Some "Health Check")
              (<["catch_response" := VNum 1]> ∅) idle_world)
    as (req & r & m & w' & Hrun & Hsent & Hmarks & _ & _ & _ & H500 & _).
  { intros v Hv. vm_compute in Hv. injection Hv as <-. reflexivity. }
  destruct (H500 eq_refl) as (Hr & _ & Hexn).
  pose proof (Hexn _ eq_refl) as Hm.
  exists req, r, w'. split; [exact Hrun|]. split; [exact Hsent|].
  split; [|exact Hr]. rewrite Hmarks, Hm. reflexivity.
Defined.

(** * Further properties *)

(** ** The weighted choice helper, in general *)

(** The bisection keeps the searched value bracketed: it ends at an index
    whose entry exceeds the value while the entry before it does not. *)
Lemma bisect_right_bracket (fuel : nat) (a : list Z) (x : Q) (lo hi : nat) :
  (lo <= hi)%nat -> (hi - lo <= fuel)%nat ->
  (lo = 0%nat \/ (inject_Z (nth (lo - 1)%nat a 0%Z) <= x)%Q) ->
  (x < inject_Z (nth hi a 0%Z))%Q ->
  let i := Random.bisect_right fuel a x lo hi in
  (lo <= i <= hi)%nat /\
  (i = 0%nat \/ (inject_Z (nth (i - 1)%nat a 0%Z) <= x)%Q) /\
  (x < inject_Z (nth i a 0%Z))%Q.
Proof.
  revert lo hi. induction fuel as [|fuel IH]; intros lo hi Hle Hfuel Hlo Hhi;
    cbn [Random.bisect_right].
  - assert (lo = hi) as -> by lia. cbv zeta. split; [lia|]. split; assumption.
  - destruct (Nat.ltb_spec lo hi) as [Hlt | Hge].
    + assert (Hmid : (lo <= (lo + hi) / 2 < hi)%nat).
      { split.
        - apply Nat.div_le_lower_bound; lia.
        - apply Nat.Div0.div_lt_upper_bound; lia. }
      destruct (Qltb x (inject_Z (nth ((lo + hi) / 2) a 0))) eqn:Hcmp.
      * apply Qltb_lt in Hcmp.
        destruct (IH lo ((lo + hi) / 2)%nat) as (Hr & Hb & Ha);
          [lia | lia | exact Hlo | exact Hcmp |].
        cbv zeta. split; [lia|]. split; assumption.
      * apply Qltb_ge in Hcmp.
        destruct (IH (S ((lo + hi) / 2)) hi) as (Hr & Hb & Ha);
          [lia | lia | | exact Hhi |].
        { right. replace (S ((lo + hi) / 2) - 1)%nat with ((lo + hi) / 2)%nat by lia.
          exact Hcmp. }
        cbv zeta. split; [lia|]. split; assumption.
    + assert (lo = hi) as -> by lia. cbv zeta. split; [lia|]. split; assumption.
Qed.

(** Consecutive cumulative weights differ by the weight between them. *)
Lemma nth_accumulate_from_head (acc x : Z) (rest : list Z) :
  nth 0 (Random.accumulate_from acc (x :: rest)) 0 = acc + x.
Proof. reflexivity. Qed.

Lemma nth_accumulate_from_step (weights : list Z) (acc : Z) (i : nat) :
  (S i < length weights)%nat ->
  nth (S i) (Random.accumulate_from acc weights) 0
    = nth i (Random.accumulate_from acc weights) 0 + nth (S i) weights 0.
Proof.
  revert acc i. induction weights as [|x rest IH]; intros acc i Hlen.
  - cbn in Hlen. lia.
  - cbn [Random.accumulate_from]. destruct i as [|i].
    + destruct rest as [|y rest]; [cbn in Hlen; lia|]. reflexivity.
    + cbn [nth]. cbn [length] in Hlen. rewrite IH by lia. reflexivity.
Qed.

Lemma nth_accumulate_from_last (acc x : Z) (rest : list Z) :
  nth (length (x :: rest) - 1) (Random.accumulate_from acc (x :: rest)) 0
    = acc + foldr Z.add 0 (x :: rest).
Proof.
  pose proof (last_accumulate_from acc x rest) as Hlast.
  rewrite last_lookup, length_accumulate_from in Hlast.
  rewrite nth_lookup.
  replace (length (x :: rest) - 1)%nat with (Init.Nat.pred (length (x :: rest)))
    by (cbn; lia).
  rewrite Hlast. reflexivity.
Qed.

(** The run of [weighted_choice] on a list whose total weight is positive:
    one draw, scaled by the total, is located among the cumulative
    weights. *)
Lemma weighted_choice_run {A : Type} (p : A * Z) (l : list (A * Z)) (w : world) :
  0 < foldr Z.add 0 (map snd (p :: l)) ->
  weighted_choice (p :: l) w =
    (Ret (nth (Random.bisect_right (length (p :: l) - 1)
                 (Random.accumulate (map snd (p :: l)))
                 (Qmake (Z.of_N (entropy w (pos w)) mod 2 ^ 53) (2 ^ 53)
                  * inject_Z (foldr Z.add 0 (map snd (p :: l))))
                 0 (length (p :: l) - 1))
              (map fst (p :: l)) (fst p)),
     World (entropy w) (S (pos w)) (marks w) (logs w) (sent w)).
Proof.
  intros Hpos.
  unfold weighted_choice, zip_star, lift, bind at 1.
  cbn [fst snd]. unfold Random.choices1, Random.accumulate.
  rewrite length_accumulate_from, !length_map, Nat.eqb_refl.
  cbn [negb map]. rewrite last_accumulate_from.
  rewrite (Z.add_0_l (foldr Z.add 0 (p.2 :: map snd l))).
  replace (foldr Z.add 0 (p.2 :: map snd l) <=? 0) with false
    by (symmetry; apply Z.leb_gt; exact Hpos).
  unfold Random.random, Random.next, bind, ret.
  rewrite Nat.sub_0_r. reflexivity.
Qed.

(** Whenever [weighted_choice] returns, the choice it returns stands in the
    list with a positive weight: an entry of weight zero, or below, is
    never selected, whatever the other weights are. *)
Theorem weighted_choice_selects_positive_weight
    {A : Type} (l : list (A * Z)) (w : world) (a : A) (w' : world) :
  weighted_choice l w = (Ret a, w') ->
  exists i wt, l !! i = Some (a, wt) /\ 0 < wt.
Proof.
  intros Hret. destruct l as [|p l]; [discriminate|].
  destruct (weighted_choice_nonempty p l w) as (a' & _ & Hcases).
  destruct (Z.leb_spec (foldr Z.add 0 (map snd (p :: l))) 0) as [Hle | Hpos].
  { rewrite Hcases in Hret. discriminate. }
  clear a' Hcases. rewrite (weighted_choice_run p l w Hpos) in Hret.
  set (ws := map snd (p :: l)) in *.
  set (total := foldr Z.add 0 ws) in *.
  set (x := (Qmake (Z.of_N (entropy w (pos w)) mod 2 ^ 53) (2 ^ 53)
             * inject_Z total)%Q) in *.
  set (hi := (length (p :: l) - 1)%nat) in *.
  assert (Hws : ws = snd p :: map snd l) by reflexivity.
  assert (Hlen : length ws = length (p :: l)) by (unfold ws; apply length_map).
  assert (Hx0 : (0 <= x)%Q).
  { unfold x. apply Qmult_le_0_compat.
    - apply unit_draw_bounds.
    - unfold Qle. simpl. lia. }
  assert (Hxt : (x < inject_Z total)%Q).
  { apply Qltb_lt. apply scaled_draw_below. exact Hpos. }
  destruct (bisect_right_bracket hi (Random.accumulate ws) x 0 hi)
    as (Hrange & Hbelow & Habove).
  { lia. }
  { lia. }
  { left. reflexivity. }
  { unfold Random.accumulate, hi. rewrite <- Hlen, Hws, nth_accumulate_from_last.
    rewrite Z.add_0_l. rewrite <- Hws. exact Hxt. }
  set (i := Random.bisect_right hi (Random.accumulate ws) x 0 hi) in *.
  assert (Hi : (i < length (p :: l))%nat) by (unfold hi in Hrange; cbn in *; lia).
  destruct (lookup_lt_is_Some_2 (p :: l) i Hi) as ([c wt] & Hlook).
  exists i, wt.
  assert (Hc : nth i (map fst (p :: l)) (fst p) = c).
  { rewrite nth_lookup, list_lookup_fmap, Hlook. reflexivity. }
  assert (Hwt : nth i ws 0 = wt).
  { unfold ws. rewrite nth_lookup, list_lookup_fmap, Hlook. reflexivity. }
  assert (Ha : nth i (map fst (p :: l)) (fst p) = a) by congruence.
  rewrite Hc in Ha. rewrite Ha in Hlook. clear Hc Ha Hret.
  split; [exact Hlook|].
  destruct i as [|i].
  - unfold Random.accumulate in Habove. rewrite Hws, nth_accumulate_from_head in Habove.
    rewrite Hws in Hwt. cbn [nth] in Hwt. rewrite Hwt in Habove.
    assert (H0 : (0 < inject_Z (0 + wt)%Z)%Q) by (eapply Qle_lt_trans; eassumption).
    revert H0. unfold Qlt. simpl. lia.
  - destruct Hbelow as [Hbelow | Hbelow]; [discriminate|].
    replace (S i - 1)%nat with i in Hbelow by lia.
    unfold Random.accumulate in Habove, Hbelow.
    rewrite nth_accumulate_from_step in Habove by lia.
    rewrite Hwt in Habove.
    assert (Hlt : (inject_Z (nth i (Random.accumulate_from 0%Z ws) 0%Z)
                   < inject_Z (nth i (Random.accumulate_from 0%Z ws) 0%Z + wt)%Z)%Q)
      by (eapply Qle_lt_trans; eassumption).
    revert Hlt. unfold Qlt. simpl. lia.
Qed.

Lemma weighted_choice_selects_positive_weight_witness :
  exists i wt, [("A", 0); ("B", 3); ("C", 0)] !! i = Some ("B", wt) /\ 0 < wt.
Proof.
  apply (weighted_choice_selects_positive_weight
           [("A", 0); ("B", 3); ("C", 0)] idle_world "B"
           (World (fun _ => 0%N) 1 [] [] [])).
  vm_compute. reflexivity.
Defined.

(** A list that is not empty but whose weights do not add up to a positive
    total is refused: [weighted_choice] raises [ValueError] and draws no
    random number.  The total is compared as a float, so it has to be one:
    here it is no lower than [- 2^1023]. *)
Theorem weighted_choice_rejects_nonpositive_total
    {A : Type} (l : list (A * Z)) (w : world) :
  l <> [] -> - 2 ^ 1023 <= foldr Z.add 0 (map snd l) <= 0 ->
  weighted_choice l w
    = (Raise (Exn ValueError "Total of weights must be greater than zero"), w).
Proof.
  intros Hne [_ Htotal]. destruct l as [|p l]; [congruence|].
  destruct (weighted_choice_nonempty p l w) as (a & _ & Hcases).
  rewrite Hcases.
  replace (foldr Z.add 0 (map snd (p :: l)) <=? 0) with true
    by (symmetry; apply Z.leb_le; exact Htotal).
  reflexivity.
Qed.

Lemma weighted_choice_rejects_nonpositive_total_witness :
  weighted_choice [("A", 2); ("B", -2)] idle_world
    = (Raise (Exn ValueError "Total of weights must be greater than zero"), idle_world).
Proof.
  apply (weighted_choice_rejects_nonpositive_total [("A", 2); ("B", -2)] idle_world).
  - discriminate.
  - vm_compute. split; discriminate.
Defined.

(** ** The transfer generator, draw by draw *)

(** The loop stops at the first candidate that differs from
    [from_account], after one draw for each candidate it rejected. *)
Lemma redraw_first_different
    (fuel : nat) (from_account to_account : Z)
    (e : nat -> N) (p : nat) (mk : list mark) (lg : list (level * string))
    (sn : list request) (k : nat) :
  (k <= fuel)%nat ->
  (forall j, (j < k)%nat -> candidate (World e p mk lg sn) to_account j = from_account) ->
  candidate (World e p mk lg sn) to_account k <> from_account ->
  redraw fuel from_account to_account (World e p mk lg sn)
    = (Ret (Some (candidate (World e p mk lg sn) to_account k)),
       World e (p + k) mk lg sn).
Proof.
  revert to_account p k.
  induction fuel as [|fuel IH]; intros to_account p k Hk Hsame Hdiff.
  - assert (k = 0%nat) as -> by lia. cbn [candidate] in *.
    cbn [redraw]. destruct (Z.eqb_spec to_account from_account); [contradiction|].
    rewrite Nat.add_0_r. reflexivity.
  - destruct k as [|k].
    + cbn [candidate] in *. cbn [redraw].
      destruct (Z.eqb_spec to_account from_account); [contradiction|].
      rewrite Nat.add_0_r. reflexivity.
    + assert (Hto : to_account = from_account) by (apply (Hsame 0%nat); lia).
      cbn [redraw]. destruct (Z.eqb_spec to_account from_account); [|contradiction].
      rewrite bind_run, randint_run. cbn [entropy pos marks logs sent].
      change (1 + Z.of_N (e p) mod (100 - 1 + 1))
        with (account_id_at (World e p mk lg sn) p).
      assert (Hshift : forall j,
                 candidate (World e (S p) mk lg sn)
                           (account_id_at (World e p mk lg sn) p) j
                 = candidate (World e p mk lg sn) to_account (S j)).
      { intros [|j]; cbn [candidate pos].
        - rewrite Nat.add_0_r. reflexivity.
        - replace (S p + j)%nat with (p + S j)%nat by lia. reflexivity. }
      rewrite (IH _ (S p) k).
      * rewrite Hshift. replace (S p + k)%nat with (p + S k)%nat by lia. reflexivity.
      * lia.
      * intros j Hj. rewrite Hshift. apply Hsame. lia.
      * rewrite Hshift. exact Hdiff.
Qed.

(** While every candidate equals [from_account] the loop goes on. *)
Lemma redraw_all_equal
    (fuel : nat) (from_account to_account : Z)
    (e : nat -> N) (p : nat) (mk : list mark) (lg : list (level * string))
    (sn : list request) :
  (forall j, (j <= fuel)%nat ->
     candidate (World e p mk lg sn) to_account j = from_account) ->
  redraw fuel from_account to_account (World e p mk lg sn)
    = (Ret None, World e (p + fuel) mk lg sn).
Proof.
  revert to_account p. induction fuel as [|fuel IH]; intros to_account p Hsame.
  - assert (Hto : to_account = from_account) by (apply (Hsame 0%nat); lia).
    cbn [redraw]. destruct (Z.eqb_spec to_account from_account); [|contradiction].
    rewrite Nat.add_0_r. reflexivity.
  - assert (Hto : to_account = from_account) by (apply (Hsame 0%nat); lia).
    cbn [redraw]. destruct (Z.eqb_spec to_account from_account); [|contradiction].
    rewrite bind_run, randint_run. cbn [entropy pos marks logs sent].
    change (1 + Z.of_N (e p) mod (100 - 1 + 1))
      with (account_id_at (World e p mk lg sn) p).
    rewrite (IH _ (S p)).
    + replace (S p + fuel)%nat with (p + S fuel)%nat by lia. reflexivity.
    + intros [|j] Hj; cbn [candidate pos].
      * assert (H1 := Hsame 1%nat ltac:(lia)). cbn [candidate pos] in H1.
        rewrite Nat.add_0_r in H1. exact H1.
      * replace (S p + j)%nat with (p + S j)%nat by lia.
        apply (Hsame (S (S j))). lia.
Qed.

Lemma account_id_at_range (w : world) (i : nat) : 1 <= account_id_at w i <= 100.
Proof.
  unfold account_id_at.
  assert (0 <= Z.of_N (entropy w i) mod 100 < 100) by (apply Z.mod_pos_bound; lia).
  lia.
Qed.

(** [generate_transfer_data] keeps its first draw as [fromAccountId] and
    takes as [toAccountId] the first later draw that differs from it; it
    then draws the amount, which lies between 10 and 500 and has two
    decimals.  With [k] rejected draws it consumes [k + 3] random outcomes
    and has no other effect. *)
Theorem generate_transfer_data_first_different (fuel : nat) (w : world) (k : nat) :
  (k <= fuel)%nat ->
  (forall j, (j < k)%nat ->
     account_id_at w (pos w + 1 + j) = account_id_at w (pos w)) ->
  account_id_at w (pos w + 1 + k) <> account_id_at w (pos w) ->
  exists d,
    generate_transfer_data fuel w
      = (Ret (Some d),
         World (entropy w) (pos w + k + 3) (marks w) (logs w) (sent w)) /\
    fromAccountId d = account_id_at w (pos w) /\
    toAccountId d = account_id_at w (pos w + 1 + k) /\
    1 <= fromAccountId d <= 100 /\ 1 <= toAccountId d <= 100 /\
    (10 <= amount d)%Q /\ (amount d <= 500)%Q /\
    exists n : Z, amount d = Qmake n 100.
Proof.
  destruct w as [e p mk lg sn]. cbn [entropy pos marks logs sent].
  intros Hk Hsame Hdiff.
  pose (w := World e p mk lg sn).
  assert (Hcand : forall j,
             candidate (World e (S (S p)) mk lg sn) (account_id_at w (S p)) j
             = account_id_at w (p + 1 + j)).
  { intros [|j]; cbn [candidate pos].
    - replace (p + 1 + 0)%nat with (S p) by lia. reflexivity.
    - replace (S (S p) + j)%nat with (p + 1 + S j)%nat by lia. reflexivity. }
  unfold generate_transfer_data.
  rewrite bind_run, randint_run, bind_run, randint_run.
  cbn [entropy pos marks logs sent].
  change (1 + Z.of_N (e p) mod (100 - 1 + 1)) with (account_id_at w p).
  change (1 + Z.of_N (e (S p)) mod (100 - 1 + 1)) with (account_id_at w (S p)).
  rewrite bind_run.
  rewrite (redraw_first_different fuel _ _ e (S (S p)) mk lg sn k Hk).
  - rewrite Hcand.
    unfold Random.uniform, Random.random. rewrite !bind_run.
    unfold Random.next, ret. cbn [entropy pos marks logs sent].
    match goal with
    | |- context [py_round ?x 2] =>
        destruct (py_round_2_bounds x 10 500) as (n & Hn & _ & Hlo & Hhi)
    end.
    { apply (uniform_draw_bounds 10 500). unfold Qle. simpl. lia. }
    { apply (uniform_draw_bounds 10 500). unfold Qle. simpl. lia. }
    eexists. split.
    { replace (p + k + 3)%nat with (S (S (S p) + k)) by lia. reflexivity. }
    cbn [fromAccountId toAccountId amount].
    split; [reflexivity|]. split; [reflexivity|].
    split; [apply account_id_at_range|]. split; [apply account_id_at_range|].
    split; [exact Hlo|]. split; [exact Hhi|]. exists n. exact Hn.
  - intros j Hj. rewrite Hcand. apply Hsame, Hj.
  - rewrite Hcand. exact Hdiff.
Qed.

Lemma generate_transfer_data_first_different_witness :
  exists d,
    generate_transfer_data 4 (World (fun i => N.of_nat (i / 3)) 0 [] [] [])
      = (Ret (Some d), World (fun i => N.of_nat (i / 3)) 5 [] [] []) /\
    fromAccountId d = 1 /\ toAccountId d = 2.
Proof.
  destruct (generate_transfer_data_first_different
              4 (World (fun i => N.of_nat (i / 3)) 0 [] [] []) 2)
    as (d & Hrun & Hfrom & Hto & _).
  - lia.
  - intros [|[|j]] Hj; [reflexivity | reflexivity | lia].
  - vm_compute. discriminate.
  - exists d. split; [exact Hrun|]. split; [exact Hfrom | exact Hto].
Defined.

(** As long as the draws for the second account repeat the first account,
    the loop of [generate_transfer_data] does not end: after any number of
    iterations it is still drawing. *)
Theorem generate_transfer_data_repeating_draws (fuel : nat) (w : world) :
  (forall j, (j <= fuel)%nat ->
     account_id_at w (pos w + 1 + j) = account_id_at w (pos w)) ->
  generate_transfer_data fuel w
    = (Ret None, World (entropy w) (pos w + fuel + 2) (marks w) (logs w) (sent w)).
Proof.
  destruct w as [e p mk lg sn]. cbn [entropy pos marks logs sent].
  intros Hsame.
  pose (w := World e p mk lg sn).
  unfold generate_transfer_data.
  rewrite bind_run, randint_run, bind_run, randint_run.
  cbn [entropy pos marks logs sent].
  change (1 + Z.of_N (e p) mod (100 - 1 + 1)) with (account_id_at w p).
  change (1 + Z.of_N (e (S p)) mod (100 - 1 + 1)) with (account_id_at w (S p)).
  rewrite bind_run.
  rewrite (redraw_all_equal fuel _ _ e (S (S p)) mk lg sn).
  - replace (p + fuel + 2)%nat with (S (S p) + fuel)%nat by lia. reflexivity.
  - intros [|j] Hj; cbn [candidate pos].
    + replace (S p) with (p + 1 + 0)%nat by lia. apply Hsame. lia.
    + replace (S (S p) + j)%nat with (p + 1 + S j)%nat by lia. apply Hsame. lia.
Qed.

Lemma generate_transfer_data_repeating_draws_witness :
  generate_transfer_data 7 idle_world
    = (Ret None, World (fun _ => 0%N) 9 [] [] []).
Proof.
  apply (generate_transfer_data_repeating_draws 7 idle_world).
  intros j Hj. reflexivity.
Defined.

(** ** The account generator, draw by draw *)

(** [generate_account_data] makes four draws, one for each entry, and has
    no other effect; the user id lies between 1 and 100 and the account
    type between 1 and 3. *)
Theorem generate_account_data_draws (w : world) :
  exists d,
    generate_account_data w
      = (Ret d, World (entropy w) (pos w + 4) (marks w) (logs w) (sent w)) /\
    1 <= userId d <= 100 /\
    1 <= accountTypeId d <= 3.
Proof.
  unfold generate_account_data.
  rewrite bind_run, randint_run, bind_run, randint_run, bind_run.
  unfold Random.uniform, Random.random. rewrite !bind_run.
  unfold Random.next, ret. cbn [entropy pos marks logs sent].
  rewrite bind_run. unfold Random.choice. rewrite bind_run.
  unfold Random.next, ret. cbn [entropy pos marks logs sent].
  change (N.of_nat (length ["ACTIVE"; "ACTIVE"; "ACTIVE"; "SUSPENDED"])) with 4%N.
  replace (S (S (S (S (pos w))))) with (pos w + 4)%nat by lia.
  replace (S (S (S (pos w)))) with (pos w + 3)%nat by lia.
  eexists. split; [reflexivity|]. cbn [userId accountTypeId status].
  split; apply randint_range; lia.
Qed.

(** ** The request wrapper: what is sent *)

(** [make_request] sends one request with the given method and endpoint.
    Every keyword argument of the caller is passed on unchanged, also
    [headers] and [catch_response] when the caller gives them; the JSON
    headers and [catch_response=True] are only filled in when absent.  The
    display name is the caller's, or the method and endpoint when the
    caller gives none or an empty one. *)
Theorem make_request_sends
    (self : client) (method endpoint : string) (name : option string)
    (kwargs : gmap string value) (w : world) :
  exists req,
    sent (snd (OltpDemoUser.make_request self method endpoint name kwargs w))
      = sent w ++ [req] /\
    req_method req = method /\ req_url req = endpoint /\
    (forall k v, kwargs !! k = Some v -> req_kwargs req !! k = Some v) /\
    (kwargs !! "headers" = None ->
     req_kwargs req !! "headers"
       = Some (VDict (<["Content-Type" := VStr "application/json"]>
                        (<["Accept" := VStr "application/json"]> ∅)))) /\
    (kwargs !! "catch_response" = None ->
     req_kwargs req !! "catch_response" = Some (VBool true)) /\
    (forall k, k <> "headers" -> k <> "catch_response" ->
       req_kwargs req !! k = kwargs !! k) /\
    (forall n, name = Some n -> n <> "" -> req_name req = n) /\
    (name = None \/ name = Some "" -> req_name req = method +:+ " " +:+ endpoint).
Proof.
  unfold OltpDemoUser.make_request. run_effects.
  match goal with |- context [self ?q] => set (req := q) end.
  exists req. split.
  { destruct (marking_method_cases (req_kwargs req)) as [Hmark | Hmark];
      unfold req in Hmark; cbn [req_kwargs] in Hmark;
      (destruct (status_code (self req) =? 200);
       [|destruct (status_code (self req) =? 500);
         [|destruct (status_code (self req) =? 404)]]);
      rewrite ?Hmark; cbv beta iota; try reflexivity;
      destruct (text (self req)); rewrite ?Hmark; reflexivity. }
  split; [reflexivity|]. split; [reflexivity|].
  unfold req. cbn [req_kwargs req_name].
  split; [|split; [|split; [|split; [|split]]]].
  - intros k v Hk. rewrite !setdefault_lookup, Hk. reflexivity.
  - intros Hk. rewrite !setdefault_lookup, Hk.
    destruct (decide ("headers" = "headers")); [reflexivity | congruence].
  - intros Hk. rewrite !setdefault_lookup, Hk.
    destruct (decide ("headers" = "catch_response")) as [Heq | _];
      [discriminate Heq|].
    destruct (decide ("catch_response" = "catch_response")); [reflexivity | congruence].
  - intros k Hh Hc. rewrite !setdefault_lookup.
    destruct (kwargs !! k); [reflexivity|].
    destruct (decide ("headers" = k)); [congruence|].
    destruct (decide ("catch_response" = k)); [congruence | reflexivity].
  - intros n -> Hn. unfold OltpDemoUser.display_name.
    destruct (String.eqb_spec n ""); [contradiction | reflexivity].
  - intros [-> | ->]; reflexivity.
Qed.

Lemma make_request_sends_witness :
  exists req,
    sent (snd (OltpDemoUser.make_request
                 (mocked (Response 200 (Ret "") (Ret VNone)))
                 "POST" "/api/accounts" (Some "")
                 (<["catch_response" := VBool false]> ∅) idle_world)) = [req] /\
    req_kwargs req !! "catch_response" = Some (VBool false) /\
    req_name req = "POST /api/accounts".
Proof.
  destruct (make_request_sends
              (mocked (Response 200 (Ret "") (Ret VNone)))
              "POST" "/api/accounts" (Some "")
              (<["catch_response" := VBool false]> ∅) idle_world)
    as (req & Hsent & _ & _ & Hkeep & _ & _ & _ & _ & Hname).
  exists req. split; [exact Hsent|]. split.
  - apply Hkeep. reflexivity.
  - apply Hname. right. reflexivity.
Defined.

(** The two tasks of [DefaultUser] each send one GET request, to the
    health and to the info endpoint, set exactly one mark, which is a
    success exactly for status 200, and never raise. *)
Theorem default_user_tasks (self : client) (w : world) :
  (exists req m w',
     DefaultUser.health_check self w = (Ret tt, w') /\
     sent w' = sent w ++ [req] /\
     req_method req = "GET" /\ req_url req = "/actuator/health" /\
     req_name req = "Health Check" /\
     marks w' = marks w ++ [m] /\
     (m = Success <-> status_code (self req) = 200))
  /\ (exists req m w',
        DefaultUser.info_endpoint self w = (Ret tt, w') /\
        sent w' = sent w ++ [req] /\
        req_method req = "GET" /\ req_url req = "/actuator/info" /\
        req_name req = "Info Check" /\
        marks w' = marks w ++ [m] /\
        (m = Success <-> status_code (self req) = 200)).
Proof.
  assert (Hmark : forall attr w0,
             marking_method
               (setdefault "catch_response" (VBool true)
                  (setdefault "headers" (VDict OltpDemoUser.headers) ∅)) attr w0
             = (Ret tt, w0)).
  { intros attr w0. apply marking_method_allowed.
    intros v Hv. rewrite lookup_empty in Hv. discriminate Hv. }
  split;
    [unfold DefaultUser.health_check | unfold DefaultUser.info_endpoint];
    unfold OltpDemoUser.make_request; run_effects;
    match goal with |- context [self ?q] => set (req := q) end;
    exists req;
    (destruct (Z.eqb_spec (status_code (self req)) 200) as [H200 | H200];
     [|destruct (status_code (self req) =? 500);
       [destruct (text (self req))|destruct (status_code (self req) =? 404)]]);
    rewrite ?Hmark; cbv beta iota; rewrite ?Hmark;
    eexists; eexists;
    (split; [reflexivity|]); (split; [reflexivity|]); (split; [reflexivity|]);
    (split; [reflexivity|]); (split; [reflexivity|]); (split; [reflexivity|]);
    split; intros H; try reflexivity; try assumption; try discriminate H;
    contradiction.
Qed.



(** [on_start] of a user logs one line and draws the user id and the
    account id, each between 1 and 100; it sends and marks nothing. *)
Theorem on_start_ids (user_count : Z) (w : world) :
  exists u,
    OltpDemoUser.on_start user_count w
      = (Ret u,
         World (entropy w) (pos w + 2) (marks w)
               (logs w ++ [(INFO, "User " +:+ pretty user_count +:+ " started")])
               (sent w)) /\
    1 <= OltpDemoUser.user_id u <= 100 /\ 1 <= OltpDemoUser.account_id u <= 100.
Proof.
  replace (pos w + 2)%nat with (S (S (pos w))) by lia.
  unfold OltpDemoUser.on_start. rewrite bind_run. unfold log.
  rewrite bind_run, randint_run, bind_run, randint_run.
  cbn [entropy pos marks logs sent]. unfold ret.
  eexists. split; [reflexivity|]. cbn [OltpDemoUser.user_id OltpDemoUser.account_id].
  split; apply randint_range; lia.
Qed.

(** ** The threshold checker: what it logs *)


(** ** The scenario tasks: requests, messages and logging *)

(** Every task, on every client and in every world, behaves as
    [task_detail] says. *)
Lemma run_task_detail (t : task) (self : client) (w : world) :
  task_detail t self w.
Proof.
  unfold task_detail.
  destruct t; cbn [run_task validates]; unfold_tasks;
    try (unfold CachingTasks.on_start; cbn [seq map]);
    run_monad;
    match goal with
    | |- context [Request ?m ?u ?n ?k] => set (req := Request m u n k)
    end;
    exists req;
    (split; [reflexivity|]); (split; [reflexivity|]);
    (split; [first [left; reflexivity | right; reflexivity]|]);
    try (eexists; split; [reflexivity|]; split; [reflexivity|];
         split; reflexivity).
  all: destruct (Z.eqb_spec (status_code (self req)) 200) as [Hs | Hs];
    [|close_detail].
  all: destruct (json (self req)) as [data | e]; [|close_detail].
  all: case_value data; try close_detail.
  all: repeat match goal with
         | |- context [?d !! ?k] =>
             is_var d;
             let v := fresh "v" in
             destruct (d !! k) as [v|]; [case_value v|]
         end.
  all: repeat case_test; close_detail.
Qed.

(** Every scenario task sends its one request to the performance-demo API,
    by GET or POST, and asks for manual marking ([catch_response=True])
    exactly when it is one of the tasks that validate the response. *)
Theorem scenario_task_request (t : task) (self : client) (w : world) :
  exists req,
    sent (snd (run_task t self w)) = sent w ++ [req] /\
    String.prefix "/api/demos/performance/" (req_url req) = true /\
    (req_method req = "GET" \/ req_method req = "POST") /\
    req_kwargs req !! "catch_response"
      = if validates t then Some (VBool true) else None.
Proof.
  destruct (run_task_detail t self w)
    as (req & Hcatch & Hprefix & Hmethod & w' & Hrun & Hsent & _).
  exists req. rewrite Hrun. cbn [snd].
  split; [exact Hsent|]. split; [exact Hprefix|]. split; [exact Hmethod|].
  exact Hcatch.
Qed.





(** ** The acceptance thresholds *)







(** ** The candidate ids of the caching task *)



(** ** The body of the batch request *)

